(** * Objects.py: the field objects of the Robomaster AI Challenge simulator

    A shallow embedding of [Ken/DJI/Objects.py] (rectangles, zones, bullets
    and robots) together with the properties its specification states.

    Number model.  Python's numbers are idealised: coordinates, lengths,
    angles and health are real numbers ([R], exact arithmetic, [math.cos],
    [math.sin] and the square root are the real functions); counters that
    the source only moves by integer steps (ignition delay, loading-zone
    life, ammunition, the defense-buff timer) are integers ([Z]).  Rounding
    of binary floating point is outside this model.  The depth of the call
    stack is modelled where a method calls itself ([setAngle_within]). *)

From Stdlib Require Import Reals Lra Lia ZArith List Bool Permutation.
From Stdlib Require String.
Import String.StringSyntax.
Delimit Scope string_scope with string.
From Equations Require Import Equations.
Import ListNotations.

Open Scope R_scope.

(** ** Exceptions and fallible results *)

Inductive Exn : Set :=
| DegenerateGeometry   (* projection onto a zero-length vector *)
| TypeError.           (* an operator applied to operands it does not support *)

Inductive Res (A : Type) : Type :=
| Ok (a : A)
| Raise (e : Exn).
Arguments Ok {A} a.
Arguments Raise {A} e.

Definition bind {A B : Type} (m : Res A) (k : A -> Res B) : Res B :=
  match m with
  | Ok a => k a
  | Raise e => Raise e
  end.

Notation "x <- m ;; k" := (bind m (fun x => k))
  (at level 61, m at next level, right associativity).

(** [[f(x) for x in xs]]: every element is evaluated, left to right; the
    first exception aborts the comprehension. *)
Fixpoint mapM {A B : Type} (f : A -> Res B) (xs : list A) : Res (list B) :=
  match xs with
  | [] => Ok []
  | x :: rest => y <- f x ;; ys <- mapM f rest ;; Ok (y :: ys)
  end.

(** Python's [any] on a list of booleans. *)
Definition any (bs : list bool) : bool := existsb (fun b => b) bs.

(** ** Comparisons of real numbers as booleans *)

Definition Rltb (x y : R) : bool := if Rlt_dec x y then true else false.
Definition Rleb (x y : R) : bool := if Rle_dec x y then true else false.
Definition Rgeb (x y : R) : bool := if Rge_dec x y then true else false.

(** ** Points (utils.Point) *)

Module Point.

(** Modelled from the spec: the class [Point] of [utils.py], which is not
    among the sources; section 3 describes it as an immutable pair (x, y)
    of real numbers whose operations are pure and return new points. *)
Record t : Set := mk { x : R; y : R }.

(** Modelled from the spec: [Point.move(dx, dy)], the translated point. *)
Definition move (p : t) (dx dy : R) : t := mk (x p + dx) (y p + dy).

(** Modelled from the spec: [Point.diff(other)], the vector from [other]
    to [self]. *)
Definition diff (p other : t) : t := mk (x p - x other) (y p - y other).

(** Modelled from the spec: [Point.midpoint(other)]. *)
Definition midpoint (p other : t) : t :=
  mk ((x p + x other) / 2) ((y p + y other) / 2).

(** Modelled from the spec: [Point.dot(other)], the dot product. *)
Definition dot (p other : t) : R := x p * x other + y p * y other.

(** Modelled from the spec: [Point.length], the Euclidean norm. *)
Definition length (p : t) : R := sqrt (x p * x p + y p * y p).

(** Modelled from the spec: [Point.project(onto)], the vector projection
    of [self] onto [onto].  Section 7 asks that projecting onto a
    zero-length vector fails with a DegenerateGeometry condition instead of
    dividing by zero. *)
Definition project (p onto : t) : Res t :=
  if Req_dec_T (dot onto onto) 0 then Raise DegenerateGeometry
  else
    let k := dot p onto / dot onto onto in
    Ok (mk (k * x onto) (k * y onto)).

End Point.

(** ** Rectangle and uprightRectangle *)

(** The class of a rectangular object decides which [getVertices] and
    which [contains] a method call reaches. *)
Inductive RectClass : Set :=
| Oriented   (* class Rectangle and the subclasses that keep its methods *)
| Upright.   (* class uprightRectangle and its subclasses *)

Record Rectangle : Set := mkRectangle {
  cls : RectClass;
  bottom_left : Point.t;
  width : R;
  height : R;
  angle : R;
  angle_radian : R;
  vertices : list Point.t;
  center : Point.t
}.

(** Number of whole turns between [deg] and the range [0, 360): the
    measure along which [setAngle] recurses. *)
Definition turns (deg : R) : nat := Z.abs_nat (Int_part (deg / 360)).

(** [Rectangle.setAngle]: add or subtract 360 until the angle lies in
    [0, 360), then store it.  The function gives the angle that is stored
    when the call returns; [setAngle_within] below is the same method with
    the depth of its recursion counted. *)
Equations setAngle (deg : R) : R by wf (turns deg) lt :=
  setAngle deg with Rlt_dec deg 0 => {
    | left Hneg := setAngle (deg + 360);
    | right _ with Rge_dec deg 360 => {
        | left Hbig := setAngle (deg - 360);
        | right _ := deg } }.
Next Obligation.
  (* deg < 0: adding 360 removes one turn below the range *)
  unfold turns.
  replace ((deg + 360) / 360) with (deg / 360 + 1) by field.
  destruct (base_Int_part (deg / 360)) as [Hlo Hhi].
  assert (Hshift : (Int_part (deg / 360) + 1)%Z = Int_part (deg / 360 + 1)).
  { apply Int_part_spec. rewrite plus_IZR. split; lra. }
  rewrite <- Hshift.
  assert (Hz : (Int_part (deg / 360) < 0)%Z).
  { apply lt_IZR. lra. }
  lia.
Qed.
Next Obligation.
  (* deg >= 360: subtracting 360 removes one turn above the range *)
  unfold turns.
  replace ((deg - 360) / 360) with (deg / 360 + -1) by field.
  destruct (base_Int_part (deg / 360)) as [Hlo Hhi].
  assert (Hshift : (Int_part (deg / 360) + -1)%Z = Int_part (deg / 360 + -1)).
  { apply Int_part_spec. rewrite plus_IZR. split; lra. }
  rewrite <- Hshift.
  assert (Hz : (0 < Int_part (deg / 360))%Z).
  { apply lt_IZR. lra. }
  lia.
Qed.

(** What a call of [setAngle] ends with: an angle is stored, or the
    interpreter raises RecursionError because the calls nest too deep. *)
Inductive setAngle_result : Set :=
| Stored (angle : R)
| RecursionError.

(** [Rectangle.setAngle] call by call.  [frames] is the number of nested
    calls that the interpreter still allows (its recursion limit, 1000
    unless changed, less the frames already on the stack); the method calls
    itself once for every 360 it adds or subtracts, and each call takes a
    frame. *)
Fixpoint setAngle_within (frames : nat) (deg : R) : setAngle_result :=
  match frames with
  | O => RecursionError
  | S rest =>
      if Rlt_dec deg 0 then setAngle_within rest (deg + 360)
      else if Rge_dec deg 360 then setAngle_within rest (deg - 360)
      else Stored deg
  end.

(** [Rectangle.getVertices]: the corners in winding order, obtained by
    rotating the width and height axes by [angle_radian]. *)
Definition Rectangle_getVertices (bl : Point.t) (w h ar : R) : list Point.t :=
  let width_dx := cos ar * w in
  let width_dy := sin ar * w in
  let height_dx := - sin ar * h in
  let height_dy := cos ar * h in
  let bottom_right := Point.move bl width_dx width_dy in
  let top_left := Point.move bl height_dx height_dy in
  let top_right := Point.move bottom_right height_dx height_dy in
  [bl; bottom_right; top_right; top_left].

(** [uprightRectangle.getVertices]: the override without rotation. *)
Definition uprightRectangle_getVertices (bl : Point.t) (w h : R) : list Point.t :=
  let bottom_right := Point.move bl w 0 in
  let top_right := Point.move bottom_right 0 h in
  let top_left := Point.move bl 0 h in
  [bl; bottom_right; top_right; top_left].

(** [self.getVertices()], dispatched on the class of [self]. *)
Definition getVertices (c : RectClass) (bl : Point.t) (w h ar : R) : list Point.t :=
  match c with
  | Oriented => Rectangle_getVertices bl w h ar
  | Upright => uprightRectangle_getVertices bl w h
  end.

(** [self.vertices[i]].  Every vertex list is built by [getVertices] and
    has four entries (lemma [vertices_length]), so the default is never
    reached for [i < 4]. *)
Definition vertex (self : Rectangle) (i : nat) : Point.t :=
  nth i (vertices self) (bottom_left self).

(** [Rectangle.__init__].  [setAngle] stores the normalised angle; the
    next statement of the constructor overwrites [angle_radian] with the
    radians of the angle as it was passed in.  This is the rectangle that
    the constructor builds when its call of [setAngle] returns
    ([setAngle_within]). *)
Definition Rectangle_init (c : RectClass) (bl : Point.t) (w h ang : R) : Rectangle :=
  let a := setAngle ang in
  let ar := ang / 180 * PI in
  let vs := getVertices c bl w h ar in
  mkRectangle c bl w h a ar vs (Point.midpoint bl (nth 2 vs bl)).

Definition error_threshold : R := 0.01.

(** [Rectangle.contains]: project the vector from the anchor to [point]
    on the width and height axes. *)
Definition Rectangle_contains (self : Rectangle) (point : Point.t) : Res bool :=
  let goal_vec := Point.diff point (bottom_left self) in
  let width_vec := Point.diff (vertex self 1) (bottom_left self) in
  let height_vec := Point.diff (vertex self 3) (bottom_left self) in
  width_proj <- Point.project goal_vec width_vec ;;
  height_proj <- Point.project goal_vec height_vec ;;
  Ok (Rltb (Point.length width_proj - width self) error_threshold &&
      Rltb (Point.length height_proj - height self) error_threshold &&
      Rgeb (Point.dot width_proj width_vec) 0 &&
      Rgeb (Point.dot height_proj height_vec) 0).

(** [uprightRectangle.contains]: compare with the bounds. *)
Definition uprightRectangle_contains (self : Rectangle) (point : Point.t) : bool :=
  let bl := bottom_left self in
  let top_right := vertex self 2 in
  let x := Point.x point in
  let y := Point.y point in
  Rleb (Point.x bl) x && Rleb (Point.y bl) y &&
  Rgeb (Point.x top_right) x && Rgeb (Point.y top_right) y.

(** [self.contains(point)], dispatched on the class of [self]. *)
Definition contains (self : Rectangle) (point : Point.t) : Res bool :=
  match cls self with
  | Oriented => Rectangle_contains self point
  | Upright => Ok (uprightRectangle_contains self point)
  end.

(** [Rectangle.intersects]: is a vertex of one contained in the other. *)
Definition intersects (self other : Rectangle) : Res bool :=
  mine <- mapM (contains self) (vertices other) ;;
  theirs <- mapM (contains other) (vertices self) ;;
  Ok (any (mine ++ theirs)).

(** [Rectangle.blocks]: the direction vector is not looked at. *)
Definition blocks (self : Rectangle) (point vec : Point.t) : Res bool :=
  contains self point.

(** ** Teams *)

Inductive TeamName : Set := BLUE | RED.

(** ** Robot *)

Module Robot.

(** Class attributes. *)
Definition width : R := 50.
Definition height : R := 30.
Definition gun_width : R := height / 4.
Definition gun_length : R := width.

(** A robot is a Rectangle ([body] holds the inherited fields) with its
    own state. *)
Record t : Set := mk {
  body : Rectangle;
  health : R;
  gun_angle : R;
  team : TeamName;
  defenseBuffTimer : Z;
  gun : Rectangle;
  gun_heat : R;
  bullet : Z
}.

Definition set_health (self : t) (v : R) : t :=
  mk (body self) v (gun_angle self) (team self) (defenseBuffTimer self)
     (gun self) (gun_heat self) (bullet self).

Definition set_defenseBuffTimer (self : t) (v : Z) : t :=
  mk (body self) (health self) (gun_angle self) (team self) v
     (gun self) (gun_heat self) (bullet self).

Definition set_bullet (self : t) (v : Z) : t :=
  mk (body self) (health self) (gun_angle self) (team self)
     (defenseBuffTimer self) (gun self) (gun_heat self) v.

(** The anchor that [getGun] computes: three nested midpoints. *)
Definition gun_anchor (self : Rectangle) : Point.t :=
  Point.midpoint
    (Point.midpoint
       (Point.midpoint (vertex self 1) (bottom_left self))
       (center self))
    (center self).

(** [Robot.getGun]; it reads the Rectangle fields of the robot only. *)
Definition getGun (self : Rectangle) : Rectangle :=
  let bottom_left := gun_anchor self in
  Rectangle_init Oriented bottom_left gun_length gun_width (angle self).

(** [Robot.__init__] (the registration [team.addRobot(self)] changes the
    team, not the robot). *)
Definition init (team : TeamName) (bottom_left : Point.t) (angle : R) : t :=
  let body := Rectangle_init Oriented bottom_left width height angle in
  mk body 100 0 team 0%Z (getGun body) 0 0%Z.

Definition alive (self : t) : bool := Rltb 0 (health self).

Definition load (self : t) (num : Z) : t :=
  set_bullet self (bullet self + num)%Z.

Definition hasDefenseBuff (self : t) : bool :=
  (0 <? defenseBuffTimer self)%Z.

Definition addDefenseBuff (self : t) (time : Z) : t :=
  set_defenseBuffTimer self (time * 1000)%Z.

(** [Robot.setPosition]: run the Rectangle constructor again on the
    fields of [rec], then derive the gun. *)
Definition setPosition (self : t) (rec : Rectangle) : t :=
  let '(mkRectangle _ rec_bottom_left rec_width rec_height rec_angle _ _ _) :=
    rec in
  let body :=
    Rectangle_init Oriented rec_bottom_left rec_width rec_height rec_angle in
  mk body (health self) (gun_angle self) (team self)
     (defenseBuffTimer self) (getGun body) (gun_heat self) (bullet self).

(** [action.resolve(self)]: the candidate pose, or [None]. *)
Definition Action : Type := t -> option Rectangle.

(** [Robot.execute]; [isObstructed] is the environment's obstruction
    query [env.isObstructed(rectangle, robot)]. *)
Definition execute (isObstructed : Rectangle -> t -> bool)
           (self : t) (action : Action) : t :=
  match action self with
  | None => self
  | Some result_rec =>
      if isObstructed result_rec self then self
      else setPosition self result_rec
  end.

(** What [strategy.decide(self, self)] returns: nothing, one action, or a
    list of actions. *)
Inductive Decision : Type :=
| NoAction
| Single (action : Action)
| Sequence (actions : list Action).

(** [Robot.act]; [getStrategy] is the result of [self.getStrategy()]:
    [None] for the base class, the [decide] of a strategy for the
    subclasses. *)
Definition act (isObstructed : Rectangle -> t -> bool)
           (getStrategy : option (t -> Decision)) (self : t) : t :=
  if alive self then
    let self := set_defenseBuffTimer self (defenseBuffTimer self - 1)%Z in
    match getStrategy with
    | None => self
    | Some decide =>
        match decide self with
        | NoAction => self
        | Single action => execute isObstructed self action
        | Sequence actions => fold_left (execute isObstructed) actions self
        end
    end
  else self.

(** [Robot.reduceHealth] *)
Definition reduceHealth (self : t) (amount : R) : t :=
  if alive self then
    let amount := if hasDefenseBuff self then amount / 2 else amount in
    set_health self (Rmax 0 (health self - amount))
  else self.

End Robot.

(** ** Team *)

Module Team.

(** Modelled from the spec: the team object that zones and robots refer
    to, defined outside [Objects.py]: its name and its roster. *)
Record t : Set := mk { name : TeamName; robots : list Robot.t }.

(** Modelled from the spec: [Team.addDefenseBuff], defined outside
    [Objects.py].  Section 4.7 has the zone grant the owning team a buff
    that is stored times 1000; the team passes the buff on to each of
    its robots with [Robot.addDefenseBuff]. *)
Definition addDefenseBuff (self : t) (time : Z) : t :=
  mk (name self) (map (fun r => Robot.addDefenseBuff r time) (robots self)).

End Team.

(** ** LoadingZone *)

Module LoadingZone.

(** What the name [life] can be bound to. *)
Inductive Attr : Set :=
| AInt (n : Z)      (* an integer *)
| AFunction.        (* the function [def life(self)] *)

(** The statements of the class body that bind [life], in the order of
    the source: [life = 3] (line 171), then [def life(self)] (line 195). *)
Definition class_body : list Attr := [AInt 3; AFunction].

(** A class body runs top to bottom in one namespace: a later binding of
    a name replaces the earlier one. *)
Definition class_attr (bindings : list Attr) : option Attr :=
  fold_left (fun _ b => Some b) bindings None.

(** The zone: its footprint, its team, and the instance attribute
    [life], absent until an assignment [self.life = ...] creates it
    (neither [Zone.__init__] nor [Rectangle.__init__] does). *)
Record t : Set := mk {
  zone : Rectangle;
  team : TeamName;
  instance_life : option Z
}.

(** [Zone.__init__]: an upright rectangle (angle defaults to 0) and a team. *)
Definition init (bottom_left : Point.t) (width height : R) (team : TeamName) : t :=
  mk (Rectangle_init Upright bottom_left width height 0) team None.

(** [self.life]: the instance attribute when there is one, otherwise the
    class attribute. *)
Definition life (self : t) : option Attr :=
  match instance_life self with
  | Some n => Some (AInt n)
  | None => class_attr class_body
  end.

Definition aligned (self : t) (robot : Robot.t) : bool := true.

(** [LoadingZone.load].  Comparing a method with [0] raises TypeError. *)
Definition load (self : t) (robot : Robot.t) : Res (t * Robot.t) :=
  match life self with
  | Some (AInt n) =>
      if (n <=? 0)%Z then Ok (self, robot)
      else
        let robot := if aligned self robot then Robot.load robot 100 else robot in
        Ok (mk (zone self) (team self) (Some (n - 1)%Z), robot)
  | _ => Raise TypeError
  end.

Definition reset (self : t) : t := mk (zone self) (team self) (Some 3%Z).

End LoadingZone.

(** ** DefenseBuffZone *)

Module DefenseBuffZone.

(** The class attribute [active = True] is what [self.active] reads
    until [activate] or [reset] assigns the instance attribute. *)
Record t : Set := mk {
  zone : Rectangle;
  active : bool
}.

Definition init (bottom_left : Point.t) (width height : R) : t :=
  mk (Rectangle_init Upright bottom_left width height 0) true.

(** [DefenseBuffZone.activate]; [team] is the state of the team object
    that [self.team] refers to. *)
Definition activate (self : t) (team : Team.t) : t * Team.t :=
  if active self then
    (mk (zone self) false, Team.addDefenseBuff team 30)
  else (self, team).

Definition reset (self : t) : t := mk (zone self) true.

End DefenseBuffZone.

(** ** The environment as a bullet sees it *)

(** The bodies that [env.unpenetrables()] yields: static rectangles
    (obstacles) and robots. *)
Inductive Body : Set :=
| StaticBody (r : Rectangle)
| RobotBody (r : Robot.t).

Definition Body_blocks (b : Body) (point vec : Point.t) : Res bool :=
  match b with
  | StaticBody r => blocks r point vec
  | RobotBody r => blocks (Robot.body r) point vec
  end.

(** [Character.isRobot] and its override in [Robot]. *)
Definition isRobot (b : Body) : bool :=
  match b with
  | StaticBody _ => false
  | RobotBody _ => true
  end.

(** [block.reduceHealth(amount)], which only robots have. *)
Definition Body_reduceHealth (b : Body) (amount : R) : Body :=
  match b with
  | StaticBody _ => b
  | RobotBody r => RobotBody (Robot.reduceHealth r amount)
  end.

(** [unpenetrables] is the result of [env.unpenetrables()] in iteration
    order; [bullets] is [env.characters['bullets']], a list of references
    to bullet objects (each bullet is identified by its [oid]);
    [isLegal] is [env.isLegal]. *)
Record Env : Type := mkEnv {
  unpenetrables : list Body;
  bullets : list nat;
  isLegal : Point.t -> bool
}.

(** ** Bullet *)

Module Bullet.

Definition damage : R := 20.

Record t : Set := mk {
  oid : nat;            (* the identity of the object *)
  delay : Z;
  speed : R;
  travelled : R;
  point : Point.t;
  dir : R;
  team : TeamName;
  active : bool
}.

(** [Bullet.__init__] *)
Definition init (oid : nat) (point : Point.t) (dir : R) (team : TeamName) : t :=
  mk oid 0%Z 25 0 point (dir / 180 * PI) team true.

(** [Bullet.destruct]: drop the references to [self] from the live
    collection and deactivate. *)
Definition destruct (self : t) (env : Env) : t * Env :=
  (mk (oid self) (delay self) (speed self) (travelled self) (point self)
      (dir self) (team self) false,
   mkEnv (unpenetrables env)
         (filter (fun b => negb (Nat.eqb b (oid self))) (bullets env))
         (isLegal env)).

(** The loop of [act] over the bodies: [None] when no body blocks,
    otherwise the bodies after the first blocking one took the hit.  The
    call of [destruct] that the source makes inside the loop touches the
    bullet and the live collection only; [act] below makes it once the
    loop has found the body. *)
Fixpoint hit (bodies : list Body) (move_point move_vec : Point.t)
  : Res (option (list Body)) :=
  match bodies with
  | [] => Ok None
  | block :: rest =>
      blocked <- Body_blocks block move_point move_vec ;;
      if blocked then
        Ok (Some ((if isRobot block then Body_reduceHealth block damage
                   else block) :: rest))
      else
        later <- hit rest move_point move_vec ;;
        Ok (option_map (cons block) later)
  end.

(** [Bullet.act] *)
Definition act (self : t) (env : Env) : Res (t * Env) :=
  if negb (active self) then Ok (self, env)
  else if (0 <? delay self)%Z then
    Ok (mk (oid self) (delay self - 1)%Z (speed self) (travelled self)
           (point self) (dir self) (team self) (active self), env)
  else
    let move_point :=
      Point.move (point self) (cos (dir self) * speed self)
                 (sin (dir self) * speed self) in
    let move_vec := Point.diff move_point (point self) in
    struck <- hit (unpenetrables env) move_point move_vec ;;
    match struck with
    | Some bodies =>
        let '(self, env) := destruct self env in
        Ok (self, mkEnv bodies (bullets env) (isLegal env))
    | None =>
        if isLegal env move_point then
          Ok (mk (oid self) (delay self) (speed self) (travelled self)
                 move_point (dir self) (team self) (active self), env)
        else Ok (destruct self env)
    end.

End Bullet.

(** ** The permission of a LoadingZone *)

Definition TeamName_eqb (a b : TeamName) : bool :=
  match a, b with
  | BLUE, BLUE | RED, RED => true
  | _, _ => false
  end.

(** [LoadingZone.permissble]: [self.team == team]. *)
Definition LoadingZone_permissble (self : LoadingZone.t) (team : TeamName)
  : bool :=
  TeamName_eqb (LoadingZone.team self) team.

(** ** StartingZone *)

Module StartingZone.

(** A starting zone: the rectangle that [Rectangle.__init__] sets up, if
    the constructor reached it, and the color. *)
Record t : Set := mk {
  zone : option Rectangle;
  color : R * R * R
}.

(** [StartingZone.__init__]; [start_zone_sidelength], [width] and
    [height] are the attributes of [env] that it reads, [name] is
    [team.name].  For a name other than BLUE and RED the constructor sets
    nothing: the object has no rectangle, and [color] is the class attribute
    of [Character]. *)
Definition init (start_zone_sidelength width height : R) (name : String.string)
  : t :=
  let sidelength := start_zone_sidelength in
  if String.eqb name "BLUE"%string then
    mk (Some (Rectangle_init Upright (Point.mk 0 0) sidelength sidelength 0))
       (0, 0, 0.5)
  else if String.eqb name "RED"%string then
    let point := Point.mk (width - sidelength) (height - sidelength) in
    mk (Some (Rectangle_init Upright point sidelength sidelength 0))
       (0.5, 0, 0)
  else mk None (0, 0, 0).

End StartingZone.

(** ** Classes and the methods they define *)

(** The classes of [Objects.py]. *)
Inductive Class : Set :=
| Character_class | Rectangle_class | uprightRectangle_class
| Obstacle_class | Zone_class | LoadingZone_class | DefenseBuffZone_class
| StartingZone_class | Bullet_class | Robot_class
| DummyRobot_class | CrazyRobot_class | AttackRobot_class.

(** The base class named in the class statement ([Character] and [Bullet]
    name none). *)
Definition base (c : Class) : option Class :=
  match c with
  | Character_class => None
  | Rectangle_class => Some Character_class
  | uprightRectangle_class => Some Rectangle_class
  | Obstacle_class => Some uprightRectangle_class
  | Zone_class => Some uprightRectangle_class
  | LoadingZone_class => Some Zone_class
  | DefenseBuffZone_class => Some Zone_class
  | StartingZone_class => Some Zone_class
  | Bullet_class => None
  | Robot_class => Some Rectangle_class
  | DummyRobot_class => Some Robot_class
  | CrazyRobot_class => Some Robot_class
  | AttackRobot_class => Some Robot_class
  end.

(** The names that the body of each class binds to a function. *)
Definition defines (c : Class) : list String.string :=
  (match c with
   | Character_class => ["act"; "render"; "reset"; "isRobot"]
   | Rectangle_class =>
       ["__init__"; "getVertices"; "getCenter"; "setAngle"; "contains";
        "intersects"; "blocks"; "angleTo"; "render"]
   | uprightRectangle_class => ["getVertices"; "contains"]
   | Obstacle_class => ["permissible"; "penetrable"]
   | Zone_class => ["__init__"; "penetrable"; "permissble"]
   | LoadingZone_class => ["permissble"; "aligned"; "load"; "life"; "reset"]
   | DefenseBuffZone_class => ["activate"; "reset"]
   | StartingZone_class => ["__init__"]
   | Bullet_class => ["__init__"; "act"; "destruct"; "render"]
   | Robot_class =>
       ["__init__"; "render"; "alive"; "isRobot"; "load"; "hasDefenseBuff";
        "addDefenseBuff"; "getStrategy"; "act"; "execute"; "setPosition";
        "getGun"; "reduceHealth"]
   | DummyRobot_class => ["getStrategy"]
   | CrazyRobot_class => ["getStrategy"]
   | AttackRobot_class => ["getStrategy"]
   end)%string.

(** The class and its ancestors, nearest first: the order in which a
    method name is looked up (every class has at most one base, and no
    chain is longer than five). *)
Fixpoint ancestors (depth : nat) (c : Class) : list Class :=
  match depth with
  | O => []
  | S d => c :: match base c with
                | Some b => ancestors d b
                | None => []
                end
  end.

Definition mro (c : Class) : list Class := ancestors 5 c.

(** [obj.name] for a method name: the nearest class of the object's
    ancestry that defines it; [None] is AttributeError. *)
Definition resolve (c : Class) (name : String.string) : option Class :=
  find (fun k => existsb (String.eqb name) (defines k)) (mro c).

(** * Vocabulary of the statements

    Regions, sample points and example objects that the lemmas below
    talk about. *)

(** The region that [Rectangle.contains] accepts at angle 0: the
    footprint, widened by the tolerance beyond its right and top edges. *)
Definition within_tolerance (bl : Point.t) (w h : R) (p : Point.t) : bool :=
  Rleb (Point.x bl) (Point.x p) &&
  Rltb (Point.x p) (Point.x bl + w + error_threshold) &&
  Rleb (Point.y bl) (Point.y p) &&
  Rltb (Point.y p) (Point.y bl + h + error_threshold).

(** The region that [uprightRectangle.contains] accepts: the footprint. *)
Definition within_bounds (bl : Point.t) (w h : R) (p : Point.t) : bool :=
  Rleb (Point.x bl) (Point.x p) && Rleb (Point.x p) (Point.x bl + w) &&
  Rleb (Point.y bl) (Point.y p) && Rleb (Point.y p) (Point.y bl + h).

(** The points accepted at angle 0, by class. *)
Definition region (c : RectClass) : Point.t -> R -> R -> Point.t -> bool :=
  match c with
  | Oriented => within_tolerance
  | Upright => within_bounds
  end.

Definition corners (bl : Point.t) (w h : R) : list Point.t :=
  [ bl;
    Point.mk (Point.x bl + w) (Point.y bl);
    Point.mk (Point.x bl + w) (Point.y bl + h);
    Point.mk (Point.x bl) (Point.y bl + h) ].

(** The claim as the specification words it: at angle 0 the projection test
    and the bound comparison return the same result, for containment of a
    point and for intersection of two rectangles. *)
Definition contains_agree (bl : Point.t) (w h : R) (p : Point.t) : Prop :=
  contains (Rectangle_init Oriented bl w h 0) p =
  contains (Rectangle_init Upright bl w h 0) p.

Definition intersects_agree (bl1 : Point.t) (w1 h1 : R)
           (bl2 : Point.t) (w2 h2 : R) : Prop :=
  intersects (Rectangle_init Oriented bl1 w1 h1 0)
             (Rectangle_init Oriented bl2 w2 h2 0) =
  intersects (Rectangle_init Upright bl1 w1 h1 0)
             (Rectangle_init Upright bl2 w2 h2 0).

(** The claim as the specification words it: the center of the gun is the
    end of the midpoint chain. *)
Definition gun_centered (b : Rectangle) : Prop :=
  center (Robot.getGun b) = Robot.gun_anchor b.

(** A robot at the origin asked to move 10 to the right, in a field whose
    only obstruction is the half plane left of the origin. *)
Definition left_of_field (rec : Rectangle) (_ : Robot.t) : bool :=
  Rltb (Point.x (bottom_left rec)) 0.

Definition step_right (r : Robot.t) : option Rectangle :=
  Some (Rectangle_init Oriented
          (Point.move (bottom_left (Robot.body r)) 10 0)
          Robot.width Robot.height (angle (Robot.body r))).

(** The sample point of the next step. *)
Definition next_point (self : Bullet.t) : Point.t :=
  Point.move (Bullet.point self)
             (cos (Bullet.dir self) * Bullet.speed self)
             (sin (Bullet.dir self) * Bullet.speed self).

(** A field for the examples: an obstacle away from the x axis, then a
    robot anchored at (200, 0); bullets 1 and 2 are live. *)
Definition far_obstacle : Rectangle :=
  Rectangle_init Upright (Point.mk 100 100) 10 10 0.

Definition quiet_env : Env :=
  mkEnv [StaticBody far_obstacle;
         RobotBody (Robot.init RED (Point.mk 200 0) 0)]
        [1%nat; 2%nat]
        (fun _ => true).

(** The vector that [act] passes to [blocks]. *)
Definition move_vec (self : Bullet.t) : Point.t :=
  Point.diff (next_point self) (Bullet.point self).

(** The claim as the specification words it: the robot that is hit loses
    exactly 20, or exactly 10 under a defense buff. *)
Definition hit_costs_exactly (r r' : Robot.t) : Prop :=
  Robot.health r' =
  Robot.health r - (if Robot.hasDefenseBuff r then 10 else 20).

(** A robot at the origin that is down to 10 health with no buff left
    (lemma [weak_robot_reachable] gets a fresh robot there), and a bullet
    of the other team that flies into it. *)
Definition weak_robot : Robot.t :=
  Robot.set_health (Robot.init RED (Point.mk 0 0) 0) 10.

Definition shot : Bullet.t := Bullet.init 7 (Point.mk (-20) 15) 0 BLUE.

Definition all_legal : Point.t -> bool := fun _ => true.

(** The bullet [shot] in a field with an obstacle, a fresh robot at the
    origin and a second robot behind it: the fresh robot is hit and is
    left with 80. *)
Definition busy_env : Env :=
  mkEnv [StaticBody far_obstacle;
         RobotBody (Robot.init RED (Point.mk 0 0) 0);
         RobotBody (Robot.init RED (Point.mk 100 0) 0)]
        [7%nat; 8%nat]
        all_legal.

(** Degrees to radians, as the constructor converts them. *)
Definition radians (deg : R) : R := deg / 180 * PI.

(** The coordinates of [p] along the width axis and along the height axis
    of a rectangle anchored at [bl] and rotated by [theta] (radians). *)
Definition along_width (bl : Point.t) (theta : R) (p : Point.t) : R :=
  (Point.x p - Point.x bl) * cos theta + (Point.y p - Point.y bl) * sin theta.

Definition along_height (bl : Point.t) (theta : R) (p : Point.t) : R :=
  - (Point.x p - Point.x bl) * sin theta + (Point.y p - Point.y bl) * cos theta.

(** The sum of a list of amounts. *)
Definition total (amounts : list R) : R := fold_right Rplus 0 amounts.

(** What can happen to a robot: the calls that the zones, the bullets and
    the environment make on it.  [isObstructed] is the environment's
    obstruction query. *)
Inductive Robot_step (isObstructed : Rectangle -> Robot.t -> bool)
  : Robot.t -> Robot.t -> Prop :=
| step_act (getStrategy : option (Robot.t -> Robot.Decision)) (r : Robot.t) :
    Robot_step isObstructed r (Robot.act isObstructed getStrategy r)
| step_execute (action : Robot.Action) (r : Robot.t) :
    Robot_step isObstructed r (Robot.execute isObstructed r action)
| step_setPosition (rec : Rectangle) (r : Robot.t) :
    Robot_step isObstructed r (Robot.setPosition r rec)
| step_reduceHealth (amount : R) (r : Robot.t) :
    0 <= amount ->
    Robot_step isObstructed r (Robot.reduceHealth r amount)
| step_load (num : Z) (r : Robot.t) :
    Robot_step isObstructed r (Robot.load r num)
| step_addDefenseBuff (time : Z) (r : Robot.t) :
    Robot_step isObstructed r (Robot.addDefenseBuff r time).

(** The robots that the constructor and these calls produce. *)
Inductive Robot_reachable (isObstructed : Rectangle -> Robot.t -> bool)
  : Robot.t -> Prop :=
| reach_init (team : TeamName) (bl : Point.t) (a : R) :
    Robot_reachable isObstructed (Robot.init team bl a)
| reach_step (r r' : Robot.t) :
    Robot_reachable isObstructed r -> Robot_step isObstructed r r' ->
    Robot_reachable isObstructed r'.

(** What holds of every such robot. *)
Definition Robot_wellformed (r : Robot.t) : Prop :=
  Robot.gun r = Robot.getGun (Robot.body r) /\
  cls (Robot.body r) = Oriented /\
  0 <= angle (Robot.body r) < 360 /\
  vertices (Robot.body r) =
    Rectangle_getVertices (bottom_left (Robot.body r)) (width (Robot.body r))
                          (height (Robot.body r))
                          (angle_radian (Robot.body r)) /\
  center (Robot.body r) =
    Point.midpoint (bottom_left (Robot.body r)) (vertex (Robot.body r) 2) /\
  0 <= Robot.health r <= 100.

(** [n] calls of [zone.load(robot)] in a row; an exception ends the run. *)
Fixpoint loads (n : nat) (z : LoadingZone.t) (robot : Robot.t)
  : Res (LoadingZone.t * Robot.t) :=
  match n with
  | O => Ok (z, robot)
  | S m => zr <- LoadingZone.load z robot ;; loads m (fst zr) (snd zr)
  end.

(** [n] calls of [bullet.act()] in a row, with nothing else happening in
    between. *)
Fixpoint acts (n : nat) (self : Bullet.t) (env : Env) : Res (Bullet.t * Env) :=
  match n with
  | O => Ok (self, env)
  | S m => se <- Bullet.act self env ;; acts m (fst se) (snd se)
  end.

(** The point that a bullet samples on its [k]-th step from where it is. *)
Definition sample (self : Bullet.t) (k : nat) : Point.t :=
  Point.move (Bullet.point self)
             (INR k * (cos (Bullet.dir self) * Bullet.speed self))
             (INR k * (sin (Bullet.dir self) * Bullet.speed self)).

(** The rectangle of a body. *)
Definition Body_rectangle (b : Body) : Rectangle :=
  match b with
  | StaticBody r => r
  | RobotBody r => Robot.body r
  end.

(** The ways in which [act] can return. *)
Inductive act_outcome (self : Bullet.t) (env : Env)
  : Bullet.t -> Env -> Prop :=
| outcome_idle :
    Bullet.active self = false ->
    act_outcome self env self env
| outcome_wait :
    Bullet.active self = true -> (0 < Bullet.delay self)%Z ->
    act_outcome self env
      (Bullet.mk (Bullet.oid self) (Bullet.delay self - 1) (Bullet.speed self)
                 (Bullet.travelled self) (Bullet.point self) (Bullet.dir self)
                 (Bullet.team self) true)
      env
| outcome_blocked (pre post : list Body) (block : Body) :
    Bullet.active self = true -> (Bullet.delay self <= 0)%Z ->
    unpenetrables env = pre ++ block :: post ->
    (forall b, In b pre ->
               Body_blocks b (next_point self) (move_vec self) = Ok false) ->
    Body_blocks block (next_point self) (move_vec self) = Ok true ->
    act_outcome self env
      (fst (Bullet.destruct self env))
      (mkEnv (pre ++ Body_reduceHealth block Bullet.damage :: post)
             (bullets (snd (Bullet.destruct self env))) (isLegal env))
| outcome_moved :
    Bullet.active self = true -> (Bullet.delay self <= 0)%Z ->
    (forall b, In b (unpenetrables env) ->
               Body_blocks b (next_point self) (move_vec self) = Ok false) ->
    isLegal env (next_point self) = true ->
    act_outcome self env
      (Bullet.mk (Bullet.oid self) (Bullet.delay self) (Bullet.speed self)
                 (Bullet.travelled self) (next_point self) (Bullet.dir self)
                 (Bullet.team self) true)
      env
| outcome_left :
    Bullet.active self = true -> (Bullet.delay self <= 0)%Z ->
    (forall b, In b (unpenetrables env) ->
               Body_blocks b (next_point self) (move_vec self) = Ok false) ->
    isLegal env (next_point self) = false ->
    act_outcome self env
      (fst (Bullet.destruct self env)) (snd (Bullet.destruct self env)).

(** A move of 10 to the left, which [left_of_field] obstructs for a robot
    anchored at x = 0. *)
Definition step_left (r : Robot.t) : option Rectangle :=
  Some (Rectangle_init Oriented
          (Point.move (bottom_left (Robot.body r)) (-10) 0)
          Robot.width Robot.height (angle (Robot.body r))).

(** * Properties *)

(** ** Comparisons *)

Lemma Rltb_true x y : Rltb x y = true <-> x < y.
Proof. unfold Rltb. destruct (Rlt_dec x y); split; intros; try easy. Qed.

Lemma Rleb_true x y : Rleb x y = true <-> x <= y.
Proof. unfold Rleb. destruct (Rle_dec x y); split; intros; try easy. Qed.

Lemma Rgeb_true x y : Rgeb x y = true <-> x >= y.
Proof. unfold Rgeb. destruct (Rge_dec x y); split; intros; try easy. Qed.

Lemma Rltb_false x y : Rltb x y = false <-> ~ x < y.
Proof. unfold Rltb. destruct (Rlt_dec x y); split; intros; try easy. Qed.

Lemma Rleb_false x y : Rleb x y = false <-> ~ x <= y.
Proof. unfold Rleb. destruct (Rle_dec x y); split; intros; try easy. Qed.

Lemma Rgeb_false x y : Rgeb x y = false <-> ~ x >= y.
Proof. unfold Rgeb. destruct (Rge_dec x y); split; intros; try easy. Qed.

(** ** setAngle *)

(** The defining equation of [setAngle], as the source writes it. *)
Lemma setAngle_step (deg : R) :
  setAngle deg =
  if Rlt_dec deg 0 then setAngle (deg + 360)
  else if Rge_dec deg 360 then setAngle (deg - 360)
  else deg.
Proof.
  rewrite setAngle_equation_1 at 1.
  destruct (Rlt_dec deg 0) as [Hneg | Hnn]; simpl; [reflexivity |].
  destruct (Rge_dec deg 360) as [Hbig | Hnb]; reflexivity.
Qed.

Lemma setAngle_fixed (a : R) : 0 <= a < 360 -> setAngle a = a.
Proof.
  intros [Hlo Hhi]. rewrite setAngle_step.
  destruct (Rlt_dec a 0) as [Hneg | Hnn]; [lra |].
  destruct (Rge_dec a 360) as [Hbig | Hnb]; [lra |].
  reflexivity.
Qed.

Lemma setAngle_range (x : R) : 0 <= setAngle x < 360.
Proof.
  funelim (setAngle x); try assumption.
  lra.
Qed.

(** The whole turns of an angle, step by step. *)
Lemma Int_part_next (r : R) : Int_part (r + 1) = (Int_part r + 1)%Z.
Proof.
  symmetry. apply Int_part_spec.
  destruct (base_Int_part r) as [Hlo Hhi]. rewrite plus_IZR. split; lra.
Qed.

Lemma Int_part_prev (r : R) : Int_part (r - 1) = (Int_part r - 1)%Z.
Proof.
  symmetry. apply Int_part_spec.
  destruct (base_Int_part r) as [Hlo Hhi]. rewrite minus_IZR. split; lra.
Qed.

Lemma turns_in_range (deg : R) : 0 <= deg < 360 -> turns deg = 0%nat.
Proof.
  intros [Hlo Hhi]. unfold turns.
  replace (Int_part (deg / 360)) with 0%Z; [reflexivity |].
  apply Int_part_spec. simpl. split; lra.
Qed.

Lemma turns_below (deg : R) : deg < 0 -> turns deg = S (turns (deg + 360)).
Proof.
  intros Hneg. unfold turns.
  replace ((deg + 360) / 360) with (deg / 360 + 1) by field.
  rewrite Int_part_next.
  destruct (base_Int_part (deg / 360)) as [Hlo _].
  assert (Hz : (Int_part (deg / 360) < 0)%Z) by (apply lt_IZR; lra).
  lia.
Qed.

Lemma turns_above (deg : R) : deg >= 360 -> turns deg = S (turns (deg - 360)).
Proof.
  intros Hbig. unfold turns.
  replace ((deg - 360) / 360) with (deg / 360 - 1) by field.
  rewrite Int_part_prev.
  destruct (base_Int_part (deg / 360)) as [_ Hhi].
  assert (Hz : (0 < Int_part (deg / 360))%Z) by (apply lt_IZR; lra).
  lia.
Qed.

(** The call returns exactly when the interpreter allows more nested calls
    than the angle has whole turns, and then it stores [setAngle deg]. *)
Lemma setAngle_within_frames (frames : nat) :
  forall deg : R,
    setAngle_within frames deg =
    if (turns deg <? frames)%nat then Stored (setAngle deg) else RecursionError.
Proof.
  induction frames as [| rest IH]; intros deg; [reflexivity |].
  cbn [setAngle_within]. rewrite (setAngle_step deg).
  destruct (Rlt_dec deg 0) as [Hneg | Hnn].
  - rewrite IH, (turns_below deg Hneg). reflexivity.
  - destruct (Rge_dec deg 360) as [Hbig | Hnb].
    + rewrite IH, (turns_above deg Hbig). reflexivity.
    + rewrite turns_in_range by lra. reflexivity.
Qed.

Lemma turns_400000 : turns 400000 = 1111%nat.
Proof.
  unfold turns. replace (Int_part (400000 / 360)) with 1111%Z; [reflexivity |].
  apply Int_part_spec. split; lra.
Qed.

Lemma setAngle_400000 : setAngle 400000 = 40.
Proof.
  assert (Hrun : forall n d, (d >= 360 * INR n) -> (0 <= d - 360 * INR n < 360) ->
                             setAngle d = d - 360 * INR n).
  { induction n as [| n IHn]; intros d Hd Hin.
    - simpl in *. rewrite setAngle_fixed by lra. ring.
    - rewrite S_INR in *. rewrite setAngle_step.
      pose proof (pos_INR n) as Hn.
      destruct (Rlt_dec d 0); [lra |]. destruct (Rge_dec d 360); [| lra].
      rewrite IHn by lra. ring. }
  rewrite (Hrun 1111%nat 400000).
  - rewrite INR_IZR_INZ. simpl. lra.
  - rewrite INR_IZR_INZ. simpl. lra.
  - rewrite INR_IZR_INZ. simpl. lra.
Qed.

(** C8, the failing input: [setAngle(400000)] has 1111 whole turns to
    take off, so it needs 1112 nested calls; with the 1000 frames that the
    interpreter allows by default, or with fewer, it raises RecursionError
    and stores no angle.  Only with 1112 frames would it store 40.  What
    holds of the claim is the part about returning calls: an angle that is
    stored lies in [0, 360), and one further call stores it again. *)
Theorem setAngle_exceeds_recursion_limit :
  turns 400000 = 1111%nat /\
  setAngle_within 1000 400000 = RecursionError /\
  (forall frames : nat,
      setAngle_within (Nat.min frames 1000) 400000 = RecursionError) /\
  setAngle_within 1112 400000 = Stored 40 /\
  (forall (frames : nat) (x a : R),
      setAngle_within frames x = Stored a ->
      0 <= a < 360 /\ setAngle_within 1 a = Stored a).
Proof.
  split; [exact turns_400000 |].
  split; [rewrite setAngle_within_frames, turns_400000; reflexivity |].
  split.
  { intros frames. rewrite setAngle_within_frames, turns_400000.
    assert (Hfew : (1111 <? Nat.min frames 1000)%nat = false)
      by (apply Nat.ltb_ge; lia).
    rewrite Hfew. reflexivity. }
  split.
  { rewrite setAngle_within_frames, turns_400000, setAngle_400000.
    reflexivity. }
  intros frames x a. rewrite setAngle_within_frames.
  destruct (turns x <? frames)%nat; [| discriminate].
  intros Hstored. injection Hstored as <-.
  pose proof (setAngle_range x) as Hrange.
  split; [exact Hrange |].
  rewrite setAngle_within_frames, (turns_in_range _ Hrange).
  rewrite (setAngle_fixed _ Hrange). reflexivity.
Qed.

(** [setAngle] on inputs far outside the range: 725 and -10 degrees. *)
Example setAngle_725 : setAngle 725 = 5.
Proof.
  rewrite setAngle_step.
  destruct (Rlt_dec 725 0); [lra |]. destruct (Rge_dec 725 360); [| lra].
  rewrite setAngle_step.
  destruct (Rlt_dec (725 - 360) 0); [lra |].
  destruct (Rge_dec (725 - 360) 360); [| lra].
  rewrite setAngle_fixed; lra.
Qed.

Example setAngle_minus_10 : setAngle (-10) = 350.
Proof.
  rewrite setAngle_step.
  destruct (Rlt_dec (-10) 0); [| lra].
  rewrite setAngle_fixed; lra.
Qed.

(** ** Geometry of a rectangle at angle 0 *)

Lemma Point_eq (a b c d : R) : a = c -> b = d -> Point.mk a b = Point.mk c d.
Proof. intros -> ->. reflexivity. Qed.

Lemma radian_0 : 0 / 180 * PI = 0.
Proof. unfold Rdiv. ring. Qed.

Lemma project_on_width_axis (g : Point.t) (w : R) :
  w <> 0 -> Point.project g (Point.mk w 0) = Ok (Point.mk (Point.x g) 0).
Proof.
  intros Hw. unfold Point.project, Point.dot. simpl.
  destruct (Req_dec_T (w * w + 0 * 0) 0) as [Hz | Hnz].
  - exfalso. apply Hw. nra.
  - f_equal. apply Point_eq; field; assumption.
Qed.

Lemma project_on_height_axis (g : Point.t) (h : R) :
  h <> 0 -> Point.project g (Point.mk 0 h) = Ok (Point.mk 0 (Point.y g)).
Proof.
  intros Hh. unfold Point.project, Point.dot. simpl.
  destruct (Req_dec_T (0 * 0 + h * h) 0) as [Hz | Hnz].
  - exfalso. apply Hh. nra.
  - f_equal. apply Point_eq; field; assumption.
Qed.

Lemma length_on_width_axis (a : R) : Point.length (Point.mk a 0) = Rabs a.
Proof.
  unfold Point.length. simpl.
  replace (a * a + 0 * 0) with (Rsqr a) by (unfold Rsqr; ring).
  apply sqrt_Rsqr_abs.
Qed.

Lemma length_on_height_axis (a : R) : Point.length (Point.mk 0 a) = Rabs a.
Proof.
  unfold Point.length. simpl.
  replace (0 * 0 + a * a) with (Rsqr a) by (unfold Rsqr; ring).
  apply sqrt_Rsqr_abs.
Qed.

(** The vertices of a rectangle built at angle 0, of either class. *)
Lemma vertices_angle0 (c : RectClass) (bl : Point.t) (w h : R) :
  vertices (Rectangle_init c bl w h 0) =
  [ bl;
    Point.mk (Point.x bl + w) (Point.y bl);
    Point.mk (Point.x bl + w) (Point.y bl + h);
    Point.mk (Point.x bl) (Point.y bl + h) ].
Proof.
  destruct bl as [bx by_]. unfold Rectangle_init. simpl.
  destruct c; simpl.
  - unfold Rectangle_getVertices, Point.move. simpl.
    rewrite radian_0, cos_0, sin_0.
    repeat (f_equal; try (apply Point_eq; ring)).
  - unfold uprightRectangle_getVertices, Point.move. simpl.
    repeat (f_equal; try (apply Point_eq; ring)).
Qed.

Lemma vertices_length (c : RectClass) (bl : Point.t) (w h a : R) :
  length (vertices (Rectangle_init c bl w h a)) = 4%nat.
Proof. destruct c; reflexivity. Qed.

Ltac bool_to_prop :=
  repeat rewrite ?andb_true_iff, ?Rltb_true, ?Rleb_true, ?Rgeb_true.

Lemma oriented_contains_angle0 (bl : Point.t) (w h : R) (p : Point.t) :
  0 < w -> 0 < h ->
  contains (Rectangle_init Oriented bl w h 0) p = Ok (within_tolerance bl w h p).
Proof.
  intros Hw Hh. unfold contains, Rectangle_contains, vertex.
  rewrite vertices_angle0.
  destruct bl as [bx by_], p as [px py].
  unfold Rectangle_init; simpl. unfold Point.diff; simpl.
  replace (bx + w - bx) with w by ring.
  replace (by_ - by_) with 0 by ring.
  replace (bx - bx) with 0 by ring.
  replace (by_ + h - by_) with h by ring.
  rewrite project_on_width_axis by lra.
  rewrite project_on_height_axis by lra.
  simpl. f_equal.
  rewrite length_on_width_axis, length_on_height_axis.
  unfold within_tolerance, Point.dot, error_threshold. simpl.
  apply eq_true_iff_eq. bool_to_prop.
  split.
  - intros [[[H1 H2] H3] H4].
    assert (0 <= px - bx) by nra.
    assert (0 <= py - by_) by nra.
    rewrite Rabs_pos_eq in H1, H2 by assumption.
    repeat split; lra.
  - intros [[[H1 H2] H3] H4].
    rewrite !Rabs_pos_eq by lra.
    repeat split; try lra; nra.
Qed.

(** With no width the width axis is the zero vector and the projection
    test fails, whatever the point. *)
Lemma oriented_contains_degenerate (bl : Point.t) (h : R) (p : Point.t) :
  contains (Rectangle_init Oriented bl 0 h 0) p = Raise DegenerateGeometry.
Proof.
  unfold contains, Rectangle_contains, vertex.
  rewrite vertices_angle0.
  destruct bl as [bx by_], p as [px py].
  unfold Rectangle_init; simpl. unfold Point.diff; simpl.
  unfold Point.project at 1. unfold Point.dot. simpl.
  destruct (Req_dec_T _ 0) as [Hz | Hnz]; [reflexivity |].
  exfalso. apply Hnz. ring.
Qed.

Lemma upright_contains_angle0 (bl : Point.t) (w h : R) (p : Point.t) :
  contains (Rectangle_init Upright bl w h 0) p = Ok (within_bounds bl w h p).
Proof.
  unfold contains, uprightRectangle_contains, vertex.
  rewrite vertices_angle0.
  destruct bl as [bx by_], p as [px py].
  unfold Rectangle_init; simpl. f_equal.
  unfold within_bounds. simpl.
  apply eq_true_iff_eq. bool_to_prop.
  split; intros [[[H1 H2] H3] H4]; repeat split; lra.
Qed.

Lemma within_bounds_tolerance (bl : Point.t) (w h : R) (p : Point.t) :
  within_bounds bl w h p = true -> within_tolerance bl w h p = true.
Proof.
  unfold within_bounds, within_tolerance, error_threshold. bool_to_prop.
  intros [[[H1 H2] H3] H4]. repeat split; lra.
Qed.

Lemma mapM_total {A B : Type} (f : A -> Res B) (g : A -> B) (xs : list A) :
  (forall x, f x = Ok (g x)) -> mapM f xs = Ok (map g xs).
Proof.
  intros Hfg. induction xs as [| x rest IH]; simpl; [reflexivity |].
  rewrite Hfg, IH. reflexivity.
Qed.

Lemma contains_angle0 (c : RectClass) (bl : Point.t) (w h : R) (p : Point.t) :
  0 < w -> 0 < h ->
  contains (Rectangle_init c bl w h 0) p = Ok (region c bl w h p).
Proof.
  intros Hw Hh. destruct c; simpl.
  - apply oriented_contains_angle0; assumption.
  - apply upright_contains_angle0.
Qed.

Lemma intersects_angle0 (c : RectClass) (bl1 : Point.t) (w1 h1 : R)
      (bl2 : Point.t) (w2 h2 : R) :
  0 < w1 -> 0 < h1 -> 0 < w2 -> 0 < h2 ->
  intersects (Rectangle_init c bl1 w1 h1 0) (Rectangle_init c bl2 w2 h2 0) =
  Ok (any (map (region c bl1 w1 h1) (corners bl2 w2 h2) ++
           map (region c bl2 w2 h2) (corners bl1 w1 h1))).
Proof.
  intros Hw1 Hh1 Hw2 Hh2. unfold intersects.
  rewrite !vertices_angle0. fold (corners bl1 w1 h1) (corners bl2 w2 h2).
  rewrite (mapM_total _ (region c bl1 w1 h1)) by (intro; apply contains_angle0; assumption).
  unfold bind at 1.
  rewrite (mapM_total _ (region c bl2 w2 h2)) by (intro; apply contains_angle0; assumption).
  reflexivity.
Qed.

Lemma any_map_mono {A : Type} (f g : A -> bool) (xs : list A) :
  (forall x, f x = true -> g x = true) ->
  any (map f xs) = true -> any (map g xs) = true.
Proof.
  intros Hfg. unfold any. rewrite !existsb_exists.
  intros [b [Hin Hb]]. subst b. apply in_map_iff in Hin.
  destruct Hin as [x [Hx Hin]].
  exists true. split; [| reflexivity].
  apply in_map_iff. exists x. split; [| assumption].
  apply Hfg. assumption.
Qed.

Lemma any_app (xs ys : list bool) : any (xs ++ ys) = any xs || any ys.
Proof. unfold any. apply existsb_app. Qed.

(** Decide comparisons between concrete real numbers. *)
Ltac decide_R :=
  unfold Rltb, Rleb, Rgeb, error_threshold; simpl;
  repeat match goal with
         | |- context [Rlt_dec ?a ?b] =>
             destruct (Rlt_dec a b); try (exfalso; lra); simpl
         | |- context [Rle_dec ?a ?b] =>
             destruct (Rle_dec a b); try (exfalso; lra); simpl
         | |- context [Rge_dec ?a ?b] =>
             destruct (Rge_dec a b); try (exfalso; lra); simpl
         end.

(** ** C1: the two containment tests at angle 0 *)

(** C1, counterexample: the unit square anchored at the origin and the
    point (129/128, 1/2), which lies 1/128 < 0.01 to the right of the
    square: the projection test accepts it, the bound comparison does not.
    The unit square anchored at (129/128, 0) intersects the first square for
    the projection test only. *)
Lemma contains_angle0_disagree :
  ~ contains_agree (Point.mk 0 0) 1 1 (Point.mk (129 / 128) (1 / 2)) /\
  ~ intersects_agree (Point.mk 0 0) 1 1 (Point.mk (129 / 128) 0) 1 1.
Proof.
  split.
  - unfold contains_agree.
    rewrite !contains_angle0 by lra.
    unfold region, within_tolerance, within_bounds.
    decide_R. discriminate.
  - unfold intersects_agree.
    rewrite !intersects_angle0 by lra.
    unfold region, corners, within_tolerance, within_bounds, any.
    decide_R. discriminate.
Qed.

(** C1, as amended: for a rectangle at angle 0 with positive width and
    height the projection test accepts exactly the points with
    [bl.x <= x < bl.x + width + 0.01] and [bl.y <= y < bl.y + height + 0.01],
    the bound comparison exactly those with [bl.x <= x <= bl.x + width] and
    [bl.y <= y <= bl.y + height].  So what the bound comparison accepts the
    projection test accepts, the two agree at every point that is not
    within 0.01 beyond the right or the top edge, and two such rectangles
    that intersect for the bound comparison intersect for the projection
    test. *)
Theorem contains_angle0_tolerance :
  forall (bl : Point.t) (w h : R) (p : Point.t),
    0 < w -> 0 < h ->
    exists general upright : bool,
      contains (Rectangle_init Oriented bl w h 0) p = Ok general /\
      contains (Rectangle_init Upright bl w h 0) p = Ok upright /\
      (general = true <->
         Point.x bl <= Point.x p < Point.x bl + w + 0.01 /\
         Point.y bl <= Point.y p < Point.y bl + h + 0.01) /\
      (upright = true <->
         Point.x bl <= Point.x p <= Point.x bl + w /\
         Point.y bl <= Point.y p <= Point.y bl + h) /\
      (upright = true -> general = true) /\
      (~ Point.x bl + w < Point.x p < Point.x bl + w + 0.01 ->
       ~ Point.y bl + h < Point.y p < Point.y bl + h + 0.01 ->
       general = upright) /\
      (forall (bl2 : Point.t) (w2 h2 : R),
          0 < w2 -> 0 < h2 ->
          intersects (Rectangle_init Upright bl w h 0)
                     (Rectangle_init Upright bl2 w2 h2 0) = Ok true ->
          intersects (Rectangle_init Oriented bl w h 0)
                     (Rectangle_init Oriented bl2 w2 h2 0) = Ok true).
Proof.
  intros bl w h p Hw Hh.
  exists (within_tolerance bl w h p), (within_bounds bl w h p).
  split; [apply oriented_contains_angle0; assumption |].
  split; [apply upright_contains_angle0 |].
  assert (Hgen : within_tolerance bl w h p = true <->
                 Point.x bl <= Point.x p < Point.x bl + w + 0.01 /\
                 Point.y bl <= Point.y p < Point.y bl + h + 0.01).
  { unfold within_tolerance, error_threshold. bool_to_prop. tauto. }
  assert (Hup : within_bounds bl w h p = true <->
                Point.x bl <= Point.x p <= Point.x bl + w /\
                Point.y bl <= Point.y p <= Point.y bl + h).
  { unfold within_bounds. bool_to_prop. tauto. }
  split; [exact Hgen |]. split; [exact Hup |].
  split; [apply within_bounds_tolerance |].
  split.
  - intros Hx Hy. apply eq_true_iff_eq. rewrite Hgen, Hup.
    split; intros [[H1 H2] [H3 H4]]; repeat split; lra.
  - intros bl2 w2 h2 Hw2 Hh2.
    rewrite !intersects_angle0 by assumption. simpl region.
    intros Hboth.
    match type of Hboth with
    | Ok ?e = _ => assert (Hup2 : e = true) by congruence
    end.
    clear Hboth. f_equal.
    rewrite any_app in Hup2. rewrite any_app.
    apply orb_true_iff in Hup2. apply orb_true_iff.
    destruct Hup2 as [Hany | Hany]; [left | right];
      (eapply any_map_mono; [| exact Hany]);
      intro; apply within_bounds_tolerance.
Qed.

Lemma contains_angle0_tolerance_witness :
  exists general upright : bool,
    contains (Rectangle_init Oriented (Point.mk 0 0) 1 1 0)
             (Point.mk (129 / 128) (1 / 2)) = Ok general /\
    contains (Rectangle_init Upright (Point.mk 0 0) 1 1 0)
             (Point.mk (129 / 128) (1 / 2)) = Ok upright /\
    general = true /\ upright = false.
Proof.
  destruct (contains_angle0_tolerance (Point.mk 0 0) 1 1
              (Point.mk (129 / 128) (1 / 2)))
    as [general [upright [Hg [Hu [Hgen [Hup _]]]]]]; try lra.
  exists general, upright.
  split; [exact Hg |]. split; [exact Hu |]. split.
  - apply Hgen. simpl. lra.
  - destruct upright; [| reflexivity].
    exfalso. destruct Hup as [Hup _]. specialize (Hup eq_refl).
    simpl in Hup. lra.
Defined.

(** ** Robot: health *)

Lemma reduceHealth_health (r : Robot.t) (amount : R) :
  Robot.health (Robot.reduceHealth r amount) =
  if Robot.alive r then
    Rmax 0 (Robot.health r -
            (if Robot.hasDefenseBuff r then amount / 2 else amount))
  else Robot.health r.
Proof.
  unfold Robot.reduceHealth. destruct (Robot.alive r); reflexivity.
Qed.

Lemma reduceHealth_bounds (r : Robot.t) (amount : R) :
  0 <= Robot.health r -> 0 <= amount ->
  0 <= Robot.health (Robot.reduceHealth r amount) <= Robot.health r.
Proof.
  intros Hh Ha. rewrite reduceHealth_health.
  destruct (Robot.alive r); [| lra].
  destruct (Robot.hasDefenseBuff r);
    (split; [apply Rmax_l | apply Rmax_lub; lra]).
Qed.

Lemma reduceHealth_dead (r : Robot.t) (amount : R) :
  Robot.health r = 0 -> Robot.reduceHealth r amount = r.
Proof.
  intros Hz. unfold Robot.reduceHealth, Robot.alive, Rltb.
  destruct (Rlt_dec 0 (Robot.health r)); [lra | reflexivity].
Qed.

Lemma reduceHealth_all_bounds (amounts : list R) :
  forall r : Robot.t,
    0 <= Robot.health r -> Forall (fun a => 0 <= a) amounts ->
    0 <= Robot.health (fold_left Robot.reduceHealth amounts r) <= Robot.health r.
Proof.
  induction amounts as [| a rest IH]; intros r Hh Hall; simpl; [lra |].
  inversion Hall as [| a' rest' Ha Hrest]; subst.
  destruct (reduceHealth_bounds r a Hh Ha) as [Hlo Hhi].
  destruct (IH (Robot.reduceHealth r a) Hlo Hrest) as [Hlo' Hhi'].
  lra.
Qed.

Lemma reduceHealth_all_dead (amounts : list R) :
  forall r : Robot.t,
    Robot.health r = 0 -> fold_left Robot.reduceHealth amounts r = r.
Proof.
  induction amounts as [| a rest IH]; intros r Hz; simpl; [reflexivity |].
  rewrite reduceHealth_dead by assumption. apply IH. assumption.
Qed.

(** C4: whatever non-negative amounts a robot's [reduceHealth] is called
    with, in whatever number, its health stays between 0 and what it was;
    one call on a live robot leaves the maximum of 0 and the health minus
    the amount, the amount halved under a defense buff; once health is 0
    every further call leaves the robot as it is. *)
Theorem reduceHealth_never_negative :
  forall (r : Robot.t) (amounts : list R),
    0 <= Robot.health r ->
    Forall (fun a => 0 <= a) amounts ->
    0 <= Robot.health (fold_left Robot.reduceHealth amounts r) <= Robot.health r /\
    (forall a : R,
        Robot.alive r = true ->
        Robot.health (Robot.reduceHealth r a) =
        Rmax 0 (Robot.health r -
                (if Robot.hasDefenseBuff r then a / 2 else a))) /\
    (Robot.health r = 0 -> fold_left Robot.reduceHealth amounts r = r).
Proof.
  intros r amounts Hh Hall.
  split; [apply reduceHealth_all_bounds; assumption |].
  split; [| apply reduceHealth_all_dead].
  intros a Halive. rewrite reduceHealth_health, Halive. reflexivity.
Qed.

(** A fresh robot that takes 20, 50 and 45: its health ends at 0. *)
Lemma reduceHealth_never_negative_witness :
  0 <= Robot.health
         (fold_left Robot.reduceHealth [20; 50; 45]
                    (Robot.init BLUE (Point.mk 0 0) 0))
    <= 100.
Proof.
  apply (reduceHealth_never_negative
           (Robot.init BLUE (Point.mk 0 0) 0) [20; 50; 45]).
  - simpl. lra.
  - repeat constructor; lra.
Defined.

Lemma alive_iff (r : Robot.t) : Robot.alive r = true <-> 0 < Robot.health r.
Proof. unfold Robot.alive. apply Rltb_true. Qed.

Lemma reduceHealth_plain (r : Robot.t) (a : R) :
  0 < Robot.health r -> Robot.hasDefenseBuff r = false ->
  a <= Robot.health r ->
  Robot.health (Robot.reduceHealth r a) = Robot.health r - a.
Proof.
  intros Hlive Hbuff Hle. apply alive_iff in Hlive.
  rewrite reduceHealth_health, Hlive, Hbuff.
  apply Rmax_right. lra.
Qed.

Lemma reduceHealth_buffed (r : Robot.t) (a : R) :
  0 < Robot.health r -> Robot.hasDefenseBuff r = true ->
  a / 2 <= Robot.health r ->
  Robot.health (Robot.reduceHealth r a) = Robot.health r - a / 2.
Proof.
  intros Hlive Hbuff Hle. apply alive_iff in Hlive.
  rewrite reduceHealth_health, Hlive, Hbuff.
  apply Rmax_right. lra.
Qed.

Lemma reduceHealth_clamped (r : Robot.t) (a : R) :
  0 <= Robot.health r ->
  Robot.health r <= (if Robot.hasDefenseBuff r then a / 2 else a) ->
  Robot.health (Robot.reduceHealth r a) = 0.
Proof.
  intros Hh Hle. rewrite reduceHealth_health.
  destruct (Robot.alive r) eqn:Halive.
  - apply Rmax_left. lra.
  - unfold Robot.alive in Halive. apply Rltb_false in Halive. lra.
Qed.

(** A fresh robot loses 20 to a hit of 20, and 10 under a defense buff. *)
Example reduceHealth_fresh :
  Robot.health (Robot.reduceHealth (Robot.init BLUE (Point.mk 0 0) 0) 20) = 80 /\
  Robot.health
    (Robot.reduceHealth
       (Robot.addDefenseBuff (Robot.init BLUE (Point.mk 0 0) 0) 30) 20) = 90.
Proof.
  split.
  - rewrite reduceHealth_plain; simpl; try reflexivity; lra.
  - rewrite reduceHealth_buffed; simpl; try reflexivity; lra.
Qed.

Lemma reduceHealth_keeps (r : Robot.t) (a : R) :
  Robot.reduceHealth r a =
  Robot.set_health r (Robot.health (Robot.reduceHealth r a)).
Proof.
  unfold Robot.reduceHealth. destruct (Robot.alive r); [reflexivity |].
  destruct r; reflexivity.
Qed.

Lemma plain_hit (r : Robot.t) (a h : R) :
  Robot.health r = h -> Robot.hasDefenseBuff r = false ->
  0 < h -> a <= h ->
  Robot.health (Robot.reduceHealth r a) = h - a /\
  Robot.hasDefenseBuff (Robot.reduceHealth r a) = false /\
  Robot.body (Robot.reduceHealth r a) = Robot.body r.
Proof.
  intros Hh Hbuff Hlive Hle. subst h.
  split; [apply reduceHealth_plain; assumption |].
  rewrite reduceHealth_keeps. split; [exact Hbuff | reflexivity].
Qed.

Lemma act_idle (isObstructed : Rectangle -> Robot.t -> bool) (n : nat) :
  forall r : Robot.t,
    0 < Robot.health r ->
    Nat.iter n (Robot.act isObstructed None) r =
    Robot.set_defenseBuffTimer r (Robot.defenseBuffTimer r - Z.of_nat n)%Z.
Proof.
  induction n as [| n IH]; intros r Hlive.
  - simpl. rewrite Z.sub_0_r. destruct r; reflexivity.
  - rewrite Nat.iter_succ, IH by assumption.
    unfold Robot.act, Robot.alive. simpl Robot.health.
    apply Rltb_true in Hlive. rewrite Hlive.
    unfold Robot.set_defenseBuffTimer. simpl. f_equal. lia.
Qed.

(** How a robot gets to 10 health with no buff: a fresh robot is given the
    buff and takes a hit of 20 (90 left); its idle [act] runs 30000 times
    and the buff runs out; four more hits of 20 leave 10. *)
Lemma weak_robot_reachable (isObstructed : Rectangle -> Robot.t -> bool) :
  let r1 :=
    Robot.reduceHealth
      (Robot.addDefenseBuff (Robot.init RED (Point.mk 0 0) 0) 30) 20 in
  let r2 := Nat.iter (Z.to_nat 30000) (Robot.act isObstructed None) r1 in
  let r3 := fold_left Robot.reduceHealth [20; 20; 20; 20] r2 in
  Robot.health r1 = 90 /\
  Robot.health r3 = Robot.health weak_robot /\
  Robot.hasDefenseBuff r3 = Robot.hasDefenseBuff weak_robot /\
  Robot.body r3 = Robot.body weak_robot.
Proof.
  intros r1 r2 r3.
  assert (H1 : Robot.health r1 = 90).
  { unfold r1. rewrite reduceHealth_buffed; simpl; try reflexivity; lra. }
  assert (Hb1 : Robot.body r1 = Robot.body weak_robot).
  { unfold r1. rewrite reduceHealth_keeps. reflexivity. }
  assert (Ht1 : Robot.defenseBuffTimer r1 = 30000%Z).
  { unfold r1. rewrite reduceHealth_keeps. reflexivity. }
  assert (Hr2 : r2 = Robot.set_defenseBuffTimer r1 0).
  { unfold r2. rewrite act_idle by lra. f_equal.
    rewrite Z2Nat.id by lia. rewrite Ht1. lia. }
  split; [exact H1 |].
  unfold r3. clearbody r2. subst r2. clearbody r1.
  cbn [fold_left].
  destruct (plain_hit (Robot.set_defenseBuffTimer r1 0) 20 90)
    as [Ha1 [Ha2 Ha3]]; [exact H1 | reflexivity | lra | lra |].
  destruct (plain_hit _ 20 _ Ha1 Ha2) as [Hb1' [Hb2 Hb3]]; [lra | lra |].
  destruct (plain_hit _ 20 _ Hb1' Hb2) as [Hc1 [Hc2 Hc3]]; [lra | lra |].
  destruct (plain_hit _ 20 _ Hc1 Hc2) as [Hd1 [Hd2 Hd3]]; [lra | lra |].
  split; [rewrite Hd1; simpl; lra |].
  split; [rewrite Hd2; reflexivity |].
  rewrite Hd3, Hc3, Hb3, Ha3. exact Hb1.
Qed.

(** ** Robot: defense buff *)

(** C10: [addDefenseBuff] stores [time * 1000] whatever the timer held: after
    [addDefenseBuff(30)] the timer is 30000 and the buff is on, and of two
    calls in a row only the second one counts. *)
Theorem addDefenseBuff_overwrites :
  forall (r : Robot.t) (t1 t2 : Z),
    Robot.defenseBuffTimer (Robot.addDefenseBuff r 30) = 30000%Z /\
    Robot.hasDefenseBuff (Robot.addDefenseBuff r 30) = true /\
    Robot.defenseBuffTimer (Robot.addDefenseBuff r t2) = (t2 * 1000)%Z /\
    Robot.addDefenseBuff (Robot.addDefenseBuff r t1) t2 =
    Robot.addDefenseBuff r t2.
Proof.
  intros r t1 t2. repeat split.
Qed.

(** ** Robot: the gun *)

Lemma center_angle0 (c : RectClass) (bl : Point.t) (w h : R) :
  center (Rectangle_init c bl w h 0) =
  Point.mk (Point.x bl + w / 2) (Point.y bl + h / 2).
Proof.
  pose proof (vertices_angle0 c bl w h) as Hv.
  unfold Rectangle_init in *. simpl in *. rewrite Hv. simpl.
  unfold Point.midpoint. simpl. apply Point_eq; field.
Qed.

(** C6, counterexample: for a fresh robot anchored at the origin at angle 0
    the midpoint chain ends at (25, 11.25), which is the anchor corner of
    the gun; the center of the gun is (50, 15). *)
Lemma gun_center_off_chain :
  Robot.gun_anchor (Robot.body (Robot.init BLUE (Point.mk 0 0) 0)) =
    Point.mk 25 (45 / 4) /\
  center (Robot.gun (Robot.init BLUE (Point.mk 0 0) 0)) = Point.mk 50 15 /\
  ~ gun_centered (Robot.body (Robot.init BLUE (Point.mk 0 0) 0)).
Proof.
  change (Robot.gun (Robot.init BLUE (Point.mk 0 0) 0))
    with (Robot.getGun (Robot.body (Robot.init BLUE (Point.mk 0 0) 0))).
  change (Robot.body (Robot.init BLUE (Point.mk 0 0) 0))
    with (Rectangle_init Oriented (Point.mk 0 0) Robot.width Robot.height 0).
  set (b := Rectangle_init Oriented (Point.mk 0 0) Robot.width Robot.height 0).
  assert (Hanchor : Robot.gun_anchor b = Point.mk 25 (45 / 4)).
  { unfold Robot.gun_anchor, vertex, b.
    rewrite center_angle0, vertices_angle0.
    unfold Point.midpoint, Robot.width, Robot.height. simpl.
    apply Point_eq; field. }
  assert (Hangle : angle b = 0).
  { unfold b. simpl. apply setAngle_fixed. lra. }
  assert (Hcenter : center (Robot.getGun b) = Point.mk 50 15).
  { unfold Robot.getGun. rewrite Hanchor, Hangle, center_angle0.
    unfold Robot.gun_length, Robot.gun_width, Robot.width, Robot.height.
    simpl. apply Point_eq; field. }
  split; [exact Hanchor |]. split; [exact Hcenter |].
  unfold gun_centered. rewrite Hcenter, Hanchor. intros Heq.
  injection Heq as Hx Hy. lra.
Qed.

(** C6, as amended: for every pose the gun is the rectangle whose anchor
    corner (bottom-left, not its center) is the end of the chain midpoint
    of vertex 1 and the anchor, then midpoint with the center, then
    midpoint with the center again; its width is 50 (the class constant
    [Robot.width], the robot's length), its height 7.5 (a quarter of the
    class constant [Robot.height]) and its angle the angle of the body.
    The center of the gun is the midpoint of that anchor and the gun's
    opposite corner. *)
Theorem getGun_anchored_on_chain :
  forall (c : RectClass) (bl : Point.t) (w h a : R),
    let b := Rectangle_init c bl w h a in
    bottom_left (Robot.getGun b) =
      Point.midpoint
        (Point.midpoint (Point.midpoint (vertex b 1) (bottom_left b))
                        (center b))
        (center b) /\
    width (Robot.getGun b) = 50 /\
    height (Robot.getGun b) = 30 / 4 /\
    angle (Robot.getGun b) = angle b /\
    center (Robot.getGun b) =
      Point.midpoint (bottom_left (Robot.getGun b))
                     (vertex (Robot.getGun b) 2) /\
    forall team : TeamName,
      Robot.gun (Robot.init team bl a) =
      Robot.getGun (Robot.body (Robot.init team bl a)).
Proof.
  intros c bl w h a b.
  split; [reflexivity |]. split; [reflexivity |]. split; [reflexivity |].
  split; [| split; reflexivity].
  unfold b. simpl. apply setAngle_fixed, setAngle_range.
Qed.

(** ** Robot: execute *)

Lemma setPosition_pose (self : Robot.t) (rec : Rectangle) :
  let self' := Robot.setPosition self rec in
  bottom_left (Robot.body self') = bottom_left rec /\
  width (Robot.body self') = width rec /\
  height (Robot.body self') = height rec /\
  angle (Robot.body self') = setAngle (angle rec) /\
  vertices (Robot.body self') =
    Rectangle_getVertices (bottom_left rec) (width rec) (height rec)
                          (angle rec / 180 * PI) /\
  center (Robot.body self') =
    Point.midpoint (bottom_left rec) (vertex (Robot.body self') 2) /\
  Robot.gun self' = Robot.getGun (Robot.body self').
Proof.
  destruct rec as [c bl w h a ar vs ctr]. simpl. repeat split.
Qed.

(** C7: when the action resolves to [None], or to a rectangle that the
    environment reports as obstructed for this robot, [execute] returns the
    robot as it was (body, gun and all other fields); when the candidate is
    clear, the robot's anchor, width, height and angle become the
    candidate's (the angle normalised, which changes nothing for an angle
    in [0, 360)), vertices and center are computed again from them, the gun
    is the one derived from the new body, and the other fields are kept. *)
Theorem execute_rejects_or_commits :
  forall (isObstructed : Rectangle -> Robot.t -> bool)
         (self : Robot.t) (action : Robot.Action),
    (action self = None -> Robot.execute isObstructed self action = self) /\
    (forall rec : Rectangle,
        action self = Some rec -> isObstructed rec self = true ->
        Robot.execute isObstructed self action = self) /\
    (forall rec : Rectangle,
        action self = Some rec -> isObstructed rec self = false ->
        let self' := Robot.execute isObstructed self action in
        bottom_left (Robot.body self') = bottom_left rec /\
        width (Robot.body self') = width rec /\
        height (Robot.body self') = height rec /\
        angle (Robot.body self') = setAngle (angle rec) /\
        (0 <= angle rec < 360 -> angle (Robot.body self') = angle rec) /\
        vertices (Robot.body self') =
          Rectangle_getVertices (bottom_left rec) (width rec) (height rec)
                                (angle rec / 180 * PI) /\
        center (Robot.body self') =
          Point.midpoint (bottom_left rec) (vertex (Robot.body self') 2) /\
        Robot.gun self' = Robot.getGun (Robot.body self') /\
        Robot.health self' = Robot.health self /\
        Robot.defenseBuffTimer self' = Robot.defenseBuffTimer self /\
        Robot.bullet self' = Robot.bullet self /\
        Robot.team self' = Robot.team self).
Proof.
  intros isObstructed self action. unfold Robot.execute.
  split; [intros ->; reflexivity |].
  split; [intros rec -> ->; reflexivity |].
  intros rec -> ->.
  destruct (setPosition_pose self rec) as [Hbl [Hw [Hh [Ha [Hv [Hc Hg]]]]]].
  cbv zeta.
  split; [exact Hbl |]. split; [exact Hw |]. split; [exact Hh |].
  split; [exact Ha |].
  split; [intros Hnorm; rewrite Ha; apply setAngle_fixed; exact Hnorm |].
  split; [exact Hv |]. split; [exact Hc |]. split; [exact Hg |].
  destruct rec; repeat split.
Qed.

Lemma execute_rejects_or_commits_witness :
  bottom_left
    (Robot.body
       (Robot.execute left_of_field (Robot.init BLUE (Point.mk 0 0) 0)
                      step_right)) =
  Point.move (Point.mk 0 0) 10 0.
Proof.
  destruct (execute_rejects_or_commits
              left_of_field (Robot.init BLUE (Point.mk 0 0) 0) step_right)
    as [_ [_ Hclear]].
  destruct (Hclear _ eq_refl) as [Hbl _].
  - unfold left_of_field. simpl. decide_R. reflexivity.
  - exact Hbl.
Defined.

(** ** LoadingZone *)

(** What the class body leaves bound to [life] is the method. *)
Lemma class_life_is_method :
  LoadingZone.class_attr LoadingZone.class_body = Some LoadingZone.AFunction.
Proof. reflexivity. Qed.

(** C5, the failing input: on a freshly constructed loading zone [self.life]
    is the bound method [life], not 3, and the first [load] raises TypeError
    at [self.life <= 0]; the robot gets no ammunition. *)
Theorem load_fresh_zone_raises :
  forall (bl : Point.t) (w h : R) (team : TeamName) (robot : Robot.t),
    LoadingZone.life (LoadingZone.init bl w h team) =
      Some LoadingZone.AFunction /\
    LoadingZone.load (LoadingZone.init bl w h team) robot = Raise TypeError.
Proof.
  intros bl w h team robot. split; reflexivity.
Qed.

(** Once [reset] has assigned the instance attribute, the zone behaves as
    C5 describes: three loads of 100 each, the fourth changes nothing, and
    [reset] brings life back to 3. *)
Lemma load_after_reset :
  forall (z : LoadingZone.t) (robot : Robot.t),
    let z0 := LoadingZone.reset z in
    LoadingZone.life z0 = Some (LoadingZone.AInt 3) /\
    exists z1 z2 z3 r1 r2 r3,
      LoadingZone.load z0 robot = Ok (z1, r1) /\
      LoadingZone.load z1 r1 = Ok (z2, r2) /\
      LoadingZone.load z2 r2 = Ok (z3, r3) /\
      Robot.bullet r1 = (Robot.bullet robot + 100)%Z /\
      Robot.bullet r2 = (Robot.bullet robot + 200)%Z /\
      Robot.bullet r3 = (Robot.bullet robot + 300)%Z /\
      LoadingZone.life z1 = Some (LoadingZone.AInt 2) /\
      LoadingZone.life z2 = Some (LoadingZone.AInt 1) /\
      LoadingZone.life z3 = Some (LoadingZone.AInt 0) /\
      LoadingZone.load z3 r3 = Ok (z3, r3) /\
      LoadingZone.life (LoadingZone.reset z3) = Some (LoadingZone.AInt 3).
Proof.
  intros z robot z0. split; [reflexivity |].
  do 6 eexists.
  split; [reflexivity |]. split; [reflexivity |]. split; [reflexivity |].
  simpl. repeat split; lia.
Qed.

(** ** DefenseBuffZone *)

Lemma team_buffed (team : Team.t) (time : Z) :
  Forall (fun r => Robot.defenseBuffTimer r = (time * 1000)%Z)
         (Team.robots (Team.addDefenseBuff team time)).
Proof.
  unfold Team.addDefenseBuff. simpl.
  induction (Team.robots team) as [| r rest IH]; simpl; constructor;
    [reflexivity | exact IH].
Qed.

(** C9: a new zone is active.  The first [activate] gives every robot of
    the owning team the timer 30 * 1000 = 30000 and leaves the zone
    inactive; a second [activate] changes neither the zone nor the team,
    whatever happened to the team in between; after [reset] the zone is
    active, the next [activate] applies the buff again and the one after
    that does nothing. *)
Theorem activate_once_per_reset :
  forall (bl : Point.t) (w h : R) (team later : Team.t),
    let z0 := DefenseBuffZone.init bl w h in
    let z1 := fst (DefenseBuffZone.activate z0 team) in
    let team1 := snd (DefenseBuffZone.activate z0 team) in
    let z2 := DefenseBuffZone.reset z1 in
    let z3 := fst (DefenseBuffZone.activate z2 later) in
    DefenseBuffZone.active z0 = true /\
    DefenseBuffZone.active z1 = false /\
    team1 = Team.addDefenseBuff team 30 /\
    Forall (fun r => Robot.defenseBuffTimer r = 30000%Z) (Team.robots team1) /\
    length (Team.robots team1) = length (Team.robots team) /\
    DefenseBuffZone.activate z1 later = (z1, later) /\
    DefenseBuffZone.active z2 = true /\
    DefenseBuffZone.activate z2 later =
      (z3, Team.addDefenseBuff later 30) /\
    DefenseBuffZone.active z3 = false /\
    DefenseBuffZone.activate z3 later = (z3, later).
Proof.
  intros bl w h team later. cbv zeta. simpl.
  repeat split.
  - apply (team_buffed team 30).
  - apply length_map.
Qed.

(** ** Bullet *)

Lemma hit_none (bodies : list Body) (p v : Point.t) :
  (forall b, In b bodies -> Body_blocks b p v = Ok false) ->
  Bullet.hit bodies p v = Ok None.
Proof.
  induction bodies as [| b rest IH]; intros Hfree; simpl; [reflexivity |].
  rewrite (Hfree b) by (left; reflexivity). simpl.
  rewrite IH; [reflexivity |].
  intros b' Hin. apply Hfree. right. exact Hin.
Qed.

Lemma hit_first (pre post : list Body) (block : Body) (p v : Point.t) :
  (forall b, In b pre -> Body_blocks b p v = Ok false) ->
  Body_blocks block p v = Ok true ->
  Bullet.hit (pre ++ block :: post) p v = Ok (Some (pre ++ Body_reduceHealth block Bullet.damage :: post)).
Proof.
  induction pre as [| b rest IH]; intros Hfree Hblock; simpl.
  - rewrite Hblock. simpl. destruct block; reflexivity.
  - rewrite (Hfree b) by (left; reflexivity). simpl.
    rewrite IH; [reflexivity | | exact Hblock].
    intros b' Hin. apply Hfree. right. exact Hin.
Qed.

Lemma destruct_not_live (self : Bullet.t) (env : Env) :
  ~ In (Bullet.oid self) (bullets (snd (Bullet.destruct self env))).
Proof.
  simpl. intros Hin. apply filter_In in Hin. destruct Hin as [_ Hne].
  rewrite Nat.eqb_refl in Hne. discriminate.
Qed.

Lemma destruct_keeps_others (self : Bullet.t) (env : Env) (o : nat) :
  o <> Bullet.oid self ->
  (In o (bullets (snd (Bullet.destruct self env))) <-> In o (bullets env)).
Proof.
  intros Hne. simpl. rewrite filter_In.
  apply Nat.eqb_neq in Hne. rewrite Hne. simpl. tauto.
Qed.

Lemma next_point_dir0 (oid : nat) (p : Point.t) (team : TeamName) :
  next_point (Bullet.init oid p 0 team) =
  Point.mk (Point.x p + 25) (Point.y p).
Proof.
  unfold next_point, Point.move. simpl.
  rewrite radian_0, cos_0, sin_0. apply Point_eq; ring.
Qed.

Lemma act_free (self : Bullet.t) (env : Env) :
  Bullet.active self = true -> (Bullet.delay self <= 0)%Z ->
  (forall b v, In b (unpenetrables env) ->
               Body_blocks b (next_point self) v = Ok false) ->
  isLegal env (next_point self) = true ->
  Bullet.act self env =
  Ok (Bullet.mk (Bullet.oid self) (Bullet.delay self) (Bullet.speed self)
                (Bullet.travelled self) (next_point self) (Bullet.dir self)
                (Bullet.team self) true, env).
Proof.
  intros Hactive Hdelay Hfree Hlegal. unfold Bullet.act.
  rewrite Hactive. simpl negb. cbv iota.
  destruct (0 <? Bullet.delay self)%Z eqn:Hd; [apply Z.ltb_lt in Hd; lia |].
  fold (next_point self).
  rewrite hit_none by (intros b Hin; apply Hfree; exact Hin).
  simpl. rewrite Hlegal. reflexivity.
Qed.

(** C3: a bullet created at (0,0) with direction 0 (so delay 0, speed 25),
    in an environment where no body blocks the points (25,0) and (50,0) and
    every point is legal, is at (25,0) after one [act] and at (50,0) after
    the next; the environment is not changed.  An active bullet with a
    positive delay only has its delay lowered by one. *)
Theorem bullet_advances_25_per_tick :
  forall (oid : nat) (team : TeamName) (env : Env),
    (forall b v, In b (unpenetrables env) ->
                 Body_blocks b (Point.mk 25 0) v = Ok false /\
                 Body_blocks b (Point.mk 50 0) v = Ok false) ->
    (forall p, isLegal env p = true) ->
    let b0 := Bullet.init oid (Point.mk 0 0) 0 team in
    let b1 := Bullet.mk oid 0 25 0 (Point.mk 25 0) (0 / 180 * PI) team true in
    let b2 := Bullet.mk oid 0 25 0 (Point.mk 50 0) (0 / 180 * PI) team true in
    Bullet.delay b0 = 0%Z /\ Bullet.speed b0 = 25 /\
    Bullet.act b0 env = Ok (b1, env) /\
    Bullet.act b1 env = Ok (b2, env) /\
    (forall (b : Bullet.t) (e : Env),
        Bullet.active b = true -> (0 < Bullet.delay b)%Z ->
        Bullet.act b e =
        Ok (Bullet.mk (Bullet.oid b) (Bullet.delay b - 1) (Bullet.speed b)
                      (Bullet.travelled b) (Bullet.point b) (Bullet.dir b)
                      (Bullet.team b) true, e)).
Proof.
  intros oid team env Hfree Hlegal b0 b1 b2.
  assert (Hn0 : next_point b0 = Point.mk 25 0).
  { unfold b0. rewrite next_point_dir0. simpl. apply Point_eq; ring. }
  assert (Hn1 : next_point b1 = Point.mk 50 0).
  { change b1 with (Bullet.init oid (Point.mk 25 0) 0 team).
    rewrite next_point_dir0. simpl. apply Point_eq; ring. }
  split; [reflexivity |]. split; [reflexivity |].
  split; [| split].
  - rewrite (act_free b0 env eq_refl).
    + rewrite Hn0. reflexivity.
    + simpl. lia.
    + rewrite Hn0. intros b v Hin. apply Hfree. exact Hin.
    + apply Hlegal.
  - rewrite (act_free b1 env eq_refl).
    + rewrite Hn1. reflexivity.
    + simpl. lia.
    + rewrite Hn1. intros b v Hin. apply Hfree. exact Hin.
    + apply Hlegal.
  - intros b e Hactive Hdelay. unfold Bullet.act.
    rewrite Hactive. simpl negb. cbv iota.
    apply Z.ltb_lt in Hdelay. rewrite Hdelay. reflexivity.
Qed.

Lemma quiet_env_free (p : Point.t) :
  Point.x p < 100 -> Point.y p < 100 ->
  forall b v, In b (unpenetrables quiet_env) -> Body_blocks b p v = Ok false.
Proof.
  intros Hx Hy b v [Hb | [Hb | []]]; subst b; unfold Body_blocks, blocks.
  - unfold far_obstacle. rewrite contains_angle0 by lra.
    f_equal. simpl. unfold within_bounds. simpl.
    replace (Rleb 100 (Point.x p)) with false; [reflexivity |].
    symmetry. apply Rleb_false. lra.
  - simpl Robot.body.
    rewrite contains_angle0 by (unfold Robot.width, Robot.height; lra).
    f_equal. simpl. unfold within_tolerance. simpl.
    replace (Rleb 200 (Point.x p)) with false; [reflexivity |].
    symmetry. apply Rleb_false. lra.
Qed.

Lemma bullet_advances_25_per_tick_witness :
  Bullet.act (Bullet.init 1 (Point.mk 0 0) 0 BLUE) quiet_env =
  Ok (Bullet.mk 1 0 25 0 (Point.mk 25 0) (0 / 180 * PI) BLUE true, quiet_env).
Proof.
  apply (bullet_advances_25_per_tick 1 BLUE quiet_env).
  - intros b v Hin. split; apply quiet_env_free; simpl; try lra; exact Hin.
  - reflexivity.
Defined.

Lemma act_blocked (self : Bullet.t) (env : Env)
      (pre post : list Body) (block : Body) :
  Bullet.active self = true -> Bullet.delay self = 0%Z ->
  unpenetrables env = pre ++ block :: post ->
  (forall b, In b pre ->
             Body_blocks b (next_point self) (move_vec self) = Ok false) ->
  Body_blocks block (next_point self) (move_vec self) = Ok true ->
  Bullet.act self env =
  Ok (fst (Bullet.destruct self env),
      mkEnv (pre ++ Body_reduceHealth block Bullet.damage :: post)
            (bullets (snd (Bullet.destruct self env)))
            (isLegal env)).
Proof.
  intros Hactive Hdelay Hbodies Hfree Hblock. unfold Bullet.act.
  rewrite Hactive, Hdelay. simpl negb. cbv iota.
  change (0 <? 0)%Z with false. cbv iota.
  fold (next_point self). fold (move_vec self).
  rewrite Hbodies, (hit_first pre post block) by assumption.
  reflexivity.
Qed.

(** ** C2: a bullet that is blocked *)

Lemma shot_lands_in_robot (r : Robot.t) :
  Robot.body r = Rectangle_init Oriented (Point.mk 0 0) Robot.width Robot.height 0 ->
  Body_blocks (RobotBody r) (next_point shot) (move_vec shot) = Ok true.
Proof.
  intros Hbody. unfold Body_blocks, blocks. rewrite Hbody.
  rewrite contains_angle0 by (unfold Robot.width, Robot.height; lra).
  unfold shot. rewrite next_point_dir0.
  unfold region, within_tolerance, Robot.width, Robot.height.
  decide_R. reflexivity.
Qed.

(** C2, counterexample: the bullet is blocked by the robot with 10 health
    and no buff; the bullet is deactivated and leaves the live collection,
    and the robot's health becomes 0: it drops by 10, not by 20. *)
Lemma hit_on_weak_robot :
  exists (self' : Bullet.t) (r' : Robot.t),
    Bullet.act shot (mkEnv [RobotBody weak_robot] [7%nat] all_legal) =
      Ok (self', mkEnv [RobotBody r'] [] all_legal) /\
    Bullet.active self' = false /\
    Robot.hasDefenseBuff weak_robot = false /\
    Robot.health weak_robot = 10 /\
    Robot.health r' = 0 /\
    ~ hit_costs_exactly weak_robot r'.
Proof.
  exists (fst (Bullet.destruct shot (mkEnv [RobotBody weak_robot] [7%nat] all_legal))),
         (Robot.reduceHealth weak_robot Bullet.damage).
  assert (Hzero : Robot.health (Robot.reduceHealth weak_robot Bullet.damage) = 0).
  { apply reduceHealth_clamped; simpl; unfold Bullet.damage; lra. }
  split.
  - rewrite (act_blocked shot _ [] [] (RobotBody weak_robot));
      try reflexivity.
    + intros b [].
    + apply shot_lands_in_robot. reflexivity.
  - split; [reflexivity |]. split; [reflexivity |]. split; [reflexivity |].
    split; [exact Hzero |].
    unfold hit_costs_exactly. rewrite Hzero. simpl. lra.
Qed.

(** C2, as amended: an active bullet with delay 0 whose next sample point
    is blocked, [block] being the first body in iteration order that blocks
    it, is deactivated (its other fields stay) and removed from the live
    bullet collection (the other live bullets stay); the bodies before
    and after [block] are unchanged.  A blocking obstacle is unchanged.  A
    blocking robot keeps every field but its health, which becomes
    max(0, health - 20), or max(0, health - 10) under a defense buff, when
    the robot is alive, and stays as it is when the robot is dead: the drop
    is exactly 20 when the health was at least 20, and exactly 10 under a
    buff when it was at least 10. *)
Theorem bullet_blocked_by_first_body :
  forall (self : Bullet.t) (env : Env) (pre post : list Body) (block : Body),
    Bullet.active self = true ->
    Bullet.delay self = 0%Z ->
    unpenetrables env = pre ++ block :: post ->
    (forall b, In b pre ->
               Body_blocks b (next_point self) (move_vec self) = Ok false) ->
    Body_blocks block (next_point self) (move_vec self) = Ok true ->
    exists (self' : Bullet.t) (env' : Env) (block' : Body),
      Bullet.act self env = Ok (self', env') /\
      self' = Bullet.mk (Bullet.oid self) (Bullet.delay self)
                        (Bullet.speed self) (Bullet.travelled self)
                        (Bullet.point self) (Bullet.dir self)
                        (Bullet.team self) false /\
      ~ In (Bullet.oid self) (bullets env') /\
      (forall o, o <> Bullet.oid self ->
                 (In o (bullets env') <-> In o (bullets env))) /\
      unpenetrables env' = pre ++ block' :: post /\
      match block with
      | StaticBody _ => block' = block
      | RobotBody r =>
          exists r' : Robot.t,
            block' = RobotBody r' /\
            r' = Robot.set_health r (Robot.health r') /\
            Robot.health r' =
              (if Robot.alive r then
                 Rmax 0 (Robot.health r -
                         (if Robot.hasDefenseBuff r then 10 else 20))
               else Robot.health r) /\
            (Robot.hasDefenseBuff r = false -> 20 <= Robot.health r ->
             Robot.health r' = Robot.health r - 20) /\
            (Robot.hasDefenseBuff r = true -> 10 <= Robot.health r ->
             Robot.health r' = Robot.health r - 10)
      end.
Proof.
  intros self env pre post block Hactive Hdelay Hbodies Hfree Hblock.
  exists (fst (Bullet.destruct self env)),
         (mkEnv (pre ++ Body_reduceHealth block Bullet.damage :: post)
                (bullets (snd (Bullet.destruct self env))) (isLegal env)),
         (Body_reduceHealth block Bullet.damage).
  split; [apply act_blocked; assumption |].
  split; [reflexivity |].
  split; [apply destruct_not_live |].
  split; [intros o Hne; apply destruct_keeps_others; exact Hne |].
  split; [reflexivity |].
  destruct block as [obstacle | r]; [reflexivity |].
  exists (Robot.reduceHealth r Bullet.damage).
  split; [reflexivity |].
  split.
  { unfold Robot.reduceHealth. destruct (Robot.alive r); [reflexivity |].
    destruct r; reflexivity. }
  split.
  { rewrite reduceHealth_health. unfold Bullet.damage.
    destruct (Robot.alive r); [| reflexivity].
    destruct (Robot.hasDefenseBuff r); [| reflexivity].
    f_equal. lra. }
  split.
  - intros Hbuff Hle. apply reduceHealth_plain; unfold Bullet.damage; try assumption; lra.
  - intros Hbuff Hle. rewrite reduceHealth_buffed; unfold Bullet.damage; try assumption; lra.
Qed.

Lemma bullet_blocked_by_first_body_witness :
  exists (self' : Bullet.t) (env' : Env) (r' : Robot.t),
    Bullet.act shot busy_env = Ok (self', env') /\
    Bullet.active self' = false /\
    ~ In 7%nat (bullets env') /\
    unpenetrables env' =
      [StaticBody far_obstacle; RobotBody r';
       RobotBody (Robot.init RED (Point.mk 100 0) 0)] /\
    Robot.health r' = 100 - 20.
Proof.
  destruct (bullet_blocked_by_first_body
              shot busy_env [StaticBody far_obstacle]
              [RobotBody (Robot.init RED (Point.mk 100 0) 0)]
              (RobotBody (Robot.init RED (Point.mk 0 0) 0)))
    as [self' [env' [block' [Hact [Hself [Hgone [_ [Hbodies Hrobot]]]]]]]].
  - reflexivity.
  - reflexivity.
  - reflexivity.
  - intros b [Hb | []]. subst b. unfold Body_blocks, blocks, far_obstacle.
    rewrite contains_angle0 by lra.
    unfold shot. rewrite next_point_dir0.
    unfold region, within_bounds. decide_R. reflexivity.
  - apply shot_lands_in_robot. reflexivity.
  - destruct Hrobot as [r' [Hblock' [_ [_ [Hplain _]]]]].
    exists self', env', r'.
    split; [exact Hact |]. split; [rewrite Hself; reflexivity |].
    split; [exact Hgone |].
    split; [rewrite Hbodies, Hblock'; reflexivity |].
    apply Hplain; [reflexivity | simpl; lra].
Defined.

(** * Further properties of the geometry *)

(** ** setAngle and whole turns *)

Lemma setAngle_turns (x : R) : exists k : Z, setAngle x = x + 360 * IZR k.
Proof.
  funelim (setAngle x).
  - destruct H as [k Hk]. exists (k + 1)%Z. rewrite Hk, plus_IZR. simpl. ring.
  - destruct H as [k Hk]. exists (k - 1)%Z. rewrite Hk, minus_IZR. simpl. ring.
  - exists 0%Z. simpl. ring.
Qed.

Lemma turn_unique (y z : R) (k : Z) :
  0 <= y < 360 -> 0 <= z < 360 -> y = z + 360 * IZR k -> y = z.
Proof.
  intros Hy Hz Heq.
  assert (Hlo : (-1 < k)%Z) by (apply lt_IZR; simpl; lra).
  assert (Hhi : (k < 1)%Z) by (apply lt_IZR; simpl; lra).
  assert (Hk : k = 0%Z) by lia.
  subst k. simpl in Heq. lra.
Qed.

Lemma setAngle_unique (x y : R) (k : Z) :
  0 <= y < 360 -> y = x + 360 * IZR k -> setAngle x = y.
Proof.
  intros Hy Heq. destruct (setAngle_turns x) as [m Hm].
  symmetry. apply (turn_unique y (setAngle x) (k - m)).
  - exact Hy.
  - apply setAngle_range.
  - rewrite Hm, Heq, minus_IZR. ring.
Qed.

Lemma setAngle_periodic (x : R) (k : Z) :
  setAngle (x + 360 * IZR k) = setAngle x.
Proof.
  destruct (setAngle_turns x) as [m Hm].
  apply (setAngle_unique _ _ (m - k)); [apply setAngle_range |].
  rewrite Hm, minus_IZR. ring.
Qed.

Lemma turns_725 : turns 725 = 2%nat.
Proof.
  unfold turns. replace (Int_part (725 / 360)) with 2%Z; [reflexivity |].
  apply Int_part_spec. split; lra.
Qed.

(** X1: [setAngle] with the depth of its recursion.  The call raises
    RecursionError exactly when the interpreter allows no more nested calls
    than the angle has whole turns.  When it returns, the stored angle lies
    in [0, 360), differs from the input by a whole number of turns and is
    the only such angle; more frames give the same angle; the stored angle
    itself is stored again in one call; and any input a whole number of
    turns away, if its call returns, stores the same angle. *)
Theorem setAngle_within_limit :
  forall (frames : nat) (x : R),
    (setAngle_within frames x = RecursionError <-> (frames <= turns x)%nat) /\
    (forall a : R,
        setAngle_within frames x = Stored a ->
        0 <= a < 360 /\
        (exists k : Z, a = x + 360 * IZR k) /\
        (forall (y : R) (m : Z),
            0 <= y < 360 -> y = x + 360 * IZR m -> y = a) /\
        (forall more : nat,
            (frames <= more)%nat -> setAngle_within more x = Stored a) /\
        setAngle_within 1 a = Stored a /\
        (forall (k : Z) (frames' : nat) (b : R),
            setAngle_within frames' (x + 360 * IZR k) = Stored b -> b = a)).
Proof.
  intros frames x. rewrite setAngle_within_frames.
  destruct (turns x <? frames)%nat eqn:Hfits.
  - apply Nat.ltb_lt in Hfits. split.
    + split; [discriminate | lia].
    + intros a Hstored. injection Hstored as <-.
      split; [apply setAngle_range |].
      split; [apply setAngle_turns |].
      split; [intros y m Hy Heq; symmetry; apply (setAngle_unique x y m Hy Heq) |].
      split.
      { intros more Hmore. rewrite setAngle_within_frames.
        assert (Hfits' : (turns x <? more)%nat = true)
          by (apply Nat.ltb_lt; lia).
        rewrite Hfits'. reflexivity. }
      split.
      { rewrite setAngle_within_frames.
        rewrite (turns_in_range _ (setAngle_range x)).
        rewrite (setAngle_fixed _ (setAngle_range x)). reflexivity. }
      intros k frames' b. rewrite setAngle_within_frames.
      destruct (turns (x + 360 * IZR k) <? frames')%nat; [| discriminate].
      intros Hb. injection Hb as <-. apply setAngle_periodic.
  - apply Nat.ltb_ge in Hfits. split.
    + split; [intros _; exact Hfits | reflexivity].
    + intros a Hstored. discriminate.
Qed.

(** 725 degrees has two whole turns: two frames are not enough. *)
Lemma setAngle_within_limit_witness :
  setAngle_within 2 725 = RecursionError.
Proof.
  apply (setAngle_within_limit 2 725). rewrite turns_725. lia.
Defined.

(** ** Rotation by an angle and by its normal form *)

Lemma IZR_as_INR (k : Z) : (0 <= k)%Z -> IZR k = INR (Z.to_nat k).
Proof. intros Hk. rewrite INR_IZR_INZ, Z2Nat.id by exact Hk. reflexivity. Qed.

Lemma cos_whole_turns (t : R) (k : Z) : cos (t + 2 * IZR k * PI) = cos t.
Proof.
  destruct (Z.le_ge_cases 0 k) as [Hpos | Hneg].
  - rewrite (IZR_as_INR k Hpos). apply cos_period.
  - rewrite <- (cos_period (t + 2 * IZR k * PI) (Z.to_nat (- k))).
    f_equal. rewrite <- IZR_as_INR by lia. rewrite opp_IZR. ring.
Qed.

Lemma sin_whole_turns (t : R) (k : Z) : sin (t + 2 * IZR k * PI) = sin t.
Proof.
  destruct (Z.le_ge_cases 0 k) as [Hpos | Hneg].
  - rewrite (IZR_as_INR k Hpos). apply sin_period.
  - rewrite <- (sin_period (t + 2 * IZR k * PI) (Z.to_nat (- k))).
    f_equal. rewrite <- IZR_as_INR by lia. rewrite opp_IZR. ring.
Qed.

Lemma cos_setAngle (a : R) : cos (setAngle a / 180 * PI) = cos (a / 180 * PI).
Proof.
  destruct (setAngle_turns a) as [k Hk]. rewrite Hk.
  rewrite <- (cos_whole_turns (a / 180 * PI) k). f_equal. field.
Qed.

Lemma sin_setAngle (a : R) : sin (setAngle a / 180 * PI) = sin (a / 180 * PI).
Proof.
  destruct (setAngle_turns a) as [k Hk]. rewrite Hk.
  rewrite <- (sin_whole_turns (a / 180 * PI) k). f_equal. field.
Qed.

Lemma vertices_setAngle (c : RectClass) (bl : Point.t) (w h a : R) :
  vertices (Rectangle_init c bl w h (setAngle a)) =
  vertices (Rectangle_init c bl w h a).
Proof.
  unfold Rectangle_init. simpl. destruct c; simpl; [| reflexivity].
  unfold Rectangle_getVertices. rewrite cos_setAngle, sin_setAngle.
  reflexivity.
Qed.

Lemma center_setAngle (c : RectClass) (bl : Point.t) (w h a : R) :
  center (Rectangle_init c bl w h (setAngle a)) =
  center (Rectangle_init c bl w h a).
Proof.
  pose proof (vertices_setAngle c bl w h a) as Hv.
  unfold Rectangle_init in *. simpl in *. rewrite Hv. reflexivity.
Qed.

(** ** The rectangle at any angle *)

Lemma cos_sin_unit (t : R) : cos t * cos t + sin t * sin t = 1.
Proof. pose proof (sin2_cos2 t) as H. unfold Rsqr in H. lra. Qed.

Lemma vertices_oriented (bl : Point.t) (w h a : R) :
  vertices (Rectangle_init Oriented bl w h a) =
  [ bl;
    Point.mk (Point.x bl + cos (radians a) * w)
             (Point.y bl + sin (radians a) * w);
    Point.mk (Point.x bl + cos (radians a) * w + - sin (radians a) * h)
             (Point.y bl + sin (radians a) * w + cos (radians a) * h);
    Point.mk (Point.x bl + - sin (radians a) * h)
             (Point.y bl + cos (radians a) * h) ].
Proof. reflexivity. Qed.

Lemma vertices_upright (bl : Point.t) (w h a : R) :
  vertices (Rectangle_init Upright bl w h a) =
  [ bl;
    Point.mk (Point.x bl + w) (Point.y bl + 0);
    Point.mk (Point.x bl + w + 0) (Point.y bl + 0 + h);
    Point.mk (Point.x bl + 0) (Point.y bl + h) ].
Proof. reflexivity. Qed.

(** X2: whatever the class, the anchor, the sizes and the angle, the four
    vertices that the constructor stores form a rectangle: the sides from
    the anchor are perpendicular and have the lengths |width| and |height|,
    the opposite corner is reached by either pair of sides, and the stored
    center is the midpoint of both diagonals. *)
Theorem vertices_form_rectangle :
  forall (c : RectClass) (bl : Point.t) (w h a : R),
    let r := Rectangle_init c bl w h a in
    length (vertices r) = 4%nat /\
    vertex r 0 = bl /\
    Point.dot (Point.diff (vertex r 1) bl) (Point.diff (vertex r 3) bl) = 0 /\
    Point.length (Point.diff (vertex r 1) bl) = Rabs w /\
    Point.length (Point.diff (vertex r 3) bl) = Rabs h /\
    Point.diff (vertex r 2) (vertex r 1) = Point.diff (vertex r 3) bl /\
    center r = Point.midpoint (vertex r 0) (vertex r 2) /\
    center r = Point.midpoint (vertex r 1) (vertex r 3).
Proof.
  intros c bl w h a r. destruct bl as [bx by_].
  pose proof (cos_sin_unit (radians a)) as Hunit.
  split; [destruct c; reflexivity |].
  split; [destruct c; reflexivity |].
  destruct c; unfold r, vertex;
    [rewrite vertices_oriented | rewrite vertices_upright];
    unfold Rectangle_init, Point.dot, Point.diff, Point.length, Point.midpoint;
    simpl.
  - split; [ring |].
    split.
    { replace (_ + _) with (Rsqr w)
        by (unfold Rsqr; fold (radians a); nra).
      apply sqrt_Rsqr_abs. }
    split.
    { replace (_ + _) with (Rsqr h)
        by (unfold Rsqr; fold (radians a); nra).
      apply sqrt_Rsqr_abs. }
    split; [apply Point_eq; ring |].
    split; apply Point_eq; fold (radians a); field.
  - split; [ring |].
    split.
    { replace (_ + _) with (Rsqr w) by (unfold Rsqr; ring).
      apply sqrt_Rsqr_abs. }
    split.
    { replace (_ + _) with (Rsqr h) by (unfold Rsqr; ring).
      apply sqrt_Rsqr_abs. }
    split; [apply Point_eq; ring |].
    split; apply Point_eq; field.
Qed.

Lemma project_on_axis (g : Point.t) (ux uy k : R) :
  ux * ux + uy * uy = 1 -> k <> 0 ->
  Point.project g (Point.mk (k * ux) (k * uy)) =
  Ok (Point.mk ((Point.x g * ux + Point.y g * uy) * ux)
               ((Point.x g * ux + Point.y g * uy) * uy)).
Proof.
  intros Hunit Hk. unfold Point.project, Point.dot. simpl.
  assert (Hsq : k * ux * (k * ux) + k * uy * (k * uy) = k * k) by nra.
  rewrite Hsq.
  destruct (Req_dec_T (k * k) 0) as [Hz | Hnz]; [exfalso; nra |].
  f_equal. apply Point_eq; field; exact Hk.
Qed.

Lemma length_on_axis (d ux uy : R) :
  ux * ux + uy * uy = 1 -> Point.length (Point.mk (d * ux) (d * uy)) = Rabs d.
Proof.
  intros Hunit. unfold Point.length. simpl.
  replace (d * ux * (d * ux) + d * uy * (d * uy)) with (Rsqr d)
    by (unfold Rsqr; nra).
  apply sqrt_Rsqr_abs.
Qed.

Lemma dot_on_axis (d k ux uy : R) :
  ux * ux + uy * uy = 1 ->
  Point.dot (Point.mk (d * ux) (d * uy)) (Point.mk (k * ux) (k * uy)) = d * k.
Proof.
  intros Hunit. unfold Point.dot. simpl.
  replace (d * ux * (k * ux) + d * uy * (k * uy))
    with (d * k * (ux * ux + uy * uy)) by ring.
  rewrite Hunit. ring.
Qed.

(** The region that [Rectangle.contains] accepts at any angle, in the
    coordinates along the two axes of the rectangle. *)
Lemma oriented_contains (bl : Point.t) (w h a : R) (p : Point.t) :
  0 < w -> 0 < h ->
  contains (Rectangle_init Oriented bl w h a) p =
  Ok (Rleb 0 (along_width bl (radians a) p) &&
      Rltb (along_width bl (radians a) p) (w + error_threshold) &&
      Rleb 0 (along_height bl (radians a) p) &&
      Rltb (along_height bl (radians a) p) (h + error_threshold)).
Proof.
  intros Hw Hh. unfold contains, Rectangle_contains, vertex.
  rewrite vertices_oriented.
  destruct bl as [bx by_], p as [px py].
  pose proof (cos_sin_unit (radians a)) as Hunit.
  assert (Hunit' : - sin (radians a) * - sin (radians a) +
                   cos (radians a) * cos (radians a) = 1) by lra.
  unfold Rectangle_init; simpl. unfold Point.diff; simpl.
  replace (Point.mk (bx + cos (radians a) * w - bx)
                    (by_ + sin (radians a) * w - by_))
    with (Point.mk (w * cos (radians a)) (w * sin (radians a)))
    by (apply Point_eq; ring).
  replace (Point.mk (bx + - sin (radians a) * h - bx)
                    (by_ + cos (radians a) * h - by_))
    with (Point.mk (h * - sin (radians a)) (h * cos (radians a)))
    by (apply Point_eq; ring).
  rewrite (project_on_axis _ _ _ w Hunit) by lra.
  rewrite (project_on_axis _ _ _ h Hunit') by lra.
  cbn [bind]. f_equal.
  rewrite (length_on_axis _ _ _ Hunit), (length_on_axis _ _ _ Hunit').
  rewrite (dot_on_axis _ w _ _ Hunit), (dot_on_axis _ h _ _ Hunit').
  unfold along_width, along_height, error_threshold. cbn [Point.x Point.y].
  set (lx := (px - bx) * cos (radians a) + (py - by_) * sin (radians a)).
  set (ly := (px - bx) * - sin (radians a) + (py - by_) * cos (radians a)).
  replace (- (px - bx) * sin (radians a) + (py - by_) * cos (radians a))
    with ly by (unfold ly; ring).
  apply eq_true_iff_eq. bool_to_prop.
  split.
  - intros [[[H1 H2] H3] H4].
    assert (0 <= lx) by nra. assert (0 <= ly) by nra.
    rewrite Rabs_pos_eq in H1, H2 by assumption.
    repeat split; lra.
  - intros [[[H1 H2] H3] H4].
    rewrite !Rabs_pos_eq by lra.
    repeat split; try lra; nra.
Qed.

(** X3: for a rectangle of class Rectangle with positive width and height,
    at any angle, [contains] does not fail and accepts exactly the points
    whose coordinate along the width axis lies in [0, width + 0.01) and
    whose coordinate along the height axis lies in [0, height + 0.01). *)
Theorem contains_in_axis_coordinates :
  forall (bl : Point.t) (w h a : R) (p : Point.t),
    0 < w -> 0 < h ->
    exists inside : bool,
      contains (Rectangle_init Oriented bl w h a) p = Ok inside /\
      (inside = true <->
       0 <= along_width bl (radians a) p < w + 0.01 /\
       0 <= along_height bl (radians a) p < h + 0.01).
Proof.
  intros bl w h a p Hw Hh. eexists.
  split; [apply oriented_contains; assumption |].
  unfold error_threshold. bool_to_prop. tauto.
Qed.

(** The square of side 2 anchored at the origin and turned by 90 degrees
    covers x in [-2, 0]: it contains (-1, 1). *)
Lemma contains_in_axis_coordinates_witness :
  contains (Rectangle_init Oriented (Point.mk 0 0) 2 2 90) (Point.mk (-1) 1)
  = Ok true.
Proof.
  destruct (contains_in_axis_coordinates
              (Point.mk 0 0) 2 2 90 (Point.mk (-1) 1))
    as [inside [Hc Hin]]; try lra.
  rewrite Hc. f_equal. apply Hin.
  unfold along_width, along_height, radians. simpl.
  replace (90 / 180 * PI) with (PI / 2) by field.
  rewrite cos_PI2, sin_PI2. lra.
Defined.

Lemma upright_contains (bl : Point.t) (w h a : R) (p : Point.t) :
  contains (Rectangle_init Upright bl w h a) p = Ok (within_bounds bl w h p).
Proof.
  unfold contains, uprightRectangle_contains, vertex.
  rewrite vertices_upright.
  destruct bl as [bx by_], p as [px py].
  unfold Rectangle_init; simpl. f_equal.
  unfold within_bounds. simpl.
  apply eq_true_iff_eq. bool_to_prop.
  split; intros [[[H1 H2] H3] H4]; repeat split; lra.
Qed.

Lemma oriented_contains_true (bl : Point.t) (w h a : R) (p : Point.t) :
  0 < w -> 0 < h ->
  0 <= along_width bl (radians a) p <= w ->
  0 <= along_height bl (radians a) p <= h ->
  contains (Rectangle_init Oriented bl w h a) p = Ok true.
Proof.
  intros Hw Hh Hx Hy. rewrite oriented_contains by assumption. f_equal.
  unfold error_threshold. bool_to_prop. repeat split; lra.
Qed.

Lemma center_oriented (bl : Point.t) (w h a : R) :
  center (Rectangle_init Oriented bl w h a) =
  Point.mk (Point.x bl + (cos (radians a) * w - sin (radians a) * h) / 2)
           (Point.y bl + (sin (radians a) * w + cos (radians a) * h) / 2).
Proof.
  unfold Rectangle_init, Point.midpoint, radians. simpl.
  apply Point_eq; field.
Qed.

Lemma center_upright (bl : Point.t) (w h a : R) :
  center (Rectangle_init Upright bl w h a) =
  Point.mk (Point.x bl + w / 2) (Point.y bl + h / 2).
Proof.
  unfold Rectangle_init, Point.midpoint. simpl. apply Point_eq; field.
Qed.

Lemma contains_own_points (c : RectClass) (bl : Point.t) (w h a : R) :
  0 < w -> 0 < h ->
  let r := Rectangle_init c bl w h a in
  Forall (fun v => contains r v = Ok true) (center r :: vertices r).
Proof.
  intros Hw Hh r. unfold r.
  pose proof (cos_sin_unit (radians a)) as Hunit.
  destruct c.
  - rewrite vertices_oriented, center_oriented. destruct bl as [bx by_].
    set (cs := cos (radians a)) in *. set (sn := sin (radians a)) in *.
    assert (Hwu : w * (cs * cs) + w * (sn * sn) = w)
      by (rewrite <- Rmult_plus_distr_l, Hunit; ring).
    assert (Hhu : h * (cs * cs) + h * (sn * sn) = h)
      by (rewrite <- Rmult_plus_distr_l, Hunit; ring).
    repeat apply Forall_cons; try apply Forall_nil;
      apply oriented_contains_true; try assumption;
      unfold along_width, along_height; cbn [Point.x Point.y];
      fold cs sn; split; nra.
  - rewrite vertices_upright, center_upright. destruct bl as [bx by_].
    repeat apply Forall_cons; try apply Forall_nil;
      rewrite upright_contains; f_equal;
      unfold within_bounds; cbn [Point.x Point.y];
      bool_to_prop; repeat split; lra.
Qed.

Lemma mapM_Forall {A B : Type} (f : A -> Res B) (g : A -> B) (xs : list A) :
  Forall (fun x => f x = Ok (g x)) xs -> mapM f xs = Ok (map g xs).
Proof.
  induction 1 as [| x rest Hx _ IH]; simpl; [reflexivity |].
  rewrite Hx, IH. reflexivity.
Qed.

Lemma setAngle_within_stored (frames : nat) (deg stored : R) :
  setAngle_within frames deg = Stored stored -> stored = setAngle deg.
Proof.
  rewrite setAngle_within_frames.
  destruct (turns deg <? frames)%nat; [| discriminate].
  intros Hstored. injection Hstored as <-. reflexivity.
Qed.

(** X4: take a rectangle of either class with positive width and height
    whose constructor returns, that is, whose call of [setAngle] stores an
    angle within the frames it has.  It holds that stored angle, contains
    its center, its anchor corner [vertices[0]] and the opposite corner
    [vertices[2]], and therefore intersects itself; an upright rectangle
    contains each of its four vertices.  The corners [vertices[1]] and
    [vertices[3]] of a rotated rectangle are left out: they lie on a lower
    bound of [Rectangle.contains], which has no tolerance, so there the
    rounding of the floats decides and not this model. *)
Theorem rectangle_contains_center_and_anchor :
  forall (c : RectClass) (bl : Point.t) (w h a : R) (frames : nat) (stored : R),
    0 < w -> 0 < h ->
    setAngle_within frames a = Stored stored ->
    let r := Rectangle_init c bl w h a in
    angle r = stored /\
    contains r (center r) = Ok true /\
    contains r (vertex r 0) = Ok true /\
    contains r (vertex r 2) = Ok true /\
    intersects r r = Ok true /\
    Forall (fun v => contains (Rectangle_init Upright bl w h a) v = Ok true)
           (vertices (Rectangle_init Upright bl w h a)).
Proof.
  intros c bl w h a frames stored Hw Hh Hreturns r.
  pose proof (contains_own_points c bl w h a Hw Hh) as Hall.
  cbv zeta in Hall. fold r in Hall.
  pose proof (Forall_inv Hall) as Hc.
  pose proof (Forall_inv_tail Hall) as Hv.
  assert (Hcorner : forall i : nat, (i < 4)%nat ->
                                    contains r (vertex r i) = Ok true).
  { intros i Hi. apply (proj1 (Forall_forall _ _) Hv).
    unfold vertex. apply nth_In. unfold r. destruct c; simpl; exact Hi. }
  split; [symmetry; apply (setAngle_within_stored frames a stored Hreturns) |].
  split; [exact Hc |].
  split; [apply Hcorner; lia |].
  split; [apply Hcorner; lia |].
  split.
  { unfold intersects.
    rewrite (mapM_Forall _ (fun _ => true) _ Hv). cbn [bind].
    unfold r. destruct c; reflexivity. }
  apply (Forall_inv_tail (contains_own_points Upright bl w h a Hw Hh)).
Qed.

Lemma rectangle_contains_center_and_anchor_witness :
  intersects (Rectangle_init Oriented (Point.mk 3 4) 50 30 37)
             (Rectangle_init Oriented (Point.mk 3 4) 50 30 37) = Ok true.
Proof.
  assert (Hreturns : setAngle_within 1 37 = Stored 37).
  { rewrite setAngle_within_frames.
    rewrite (turns_in_range 37) by lra.
    rewrite (setAngle_fixed 37) by lra. reflexivity. }
  apply (rectangle_contains_center_and_anchor
           Oriented (Point.mk 3 4) 50 30 37 1%nat 37); [lra | lra | exact Hreturns].
Defined.

(** ** intersects *)

Lemma project_raises (g onto : Point.t) (e : Exn) :
  Point.project g onto = Raise e -> e = DegenerateGeometry.
Proof.
  unfold Point.project. destruct (Req_dec_T _ 0); congruence.
Qed.

Lemma contains_raises (r : Rectangle) (p : Point.t) (e : Exn) :
  contains r p = Raise e -> e = DegenerateGeometry.
Proof.
  unfold contains, Rectangle_contains. destruct (cls r); [| discriminate].
  set (goal_vec := Point.diff p (bottom_left r)).
  destruct (Point.project goal_vec (Point.diff (vertex r 1) (bottom_left r)))
    as [wp | e1] eqn:H1; unfold bind at 1.
  - destruct (Point.project goal_vec (Point.diff (vertex r 3) (bottom_left r)))
      as [hp | e2] eqn:H2; unfold bind at 1.
    + discriminate.
    + intros Heq. injection Heq as <-. apply (project_raises _ _ _ H2).
  - intros Heq. injection Heq as <-. apply (project_raises _ _ _ H1).
Qed.

Lemma mapM_contains_raises (r : Rectangle) (ps : list Point.t) (e : Exn) :
  mapM (contains r) ps = Raise e -> e = DegenerateGeometry.
Proof.
  induction ps as [| p rest IH]; simpl; [discriminate |].
  destruct (contains r p) as [b | e1] eqn:Hc; cbn [bind].
  - destruct (mapM (contains r) rest) as [bs | e2]; cbn [bind].
    + discriminate.
    + intros Heq. injection Heq as <-. apply IH. reflexivity.
  - intros Heq. injection Heq as <-. apply (contains_raises _ _ _ Hc).
Qed.

Lemma intersects_comm (a b : Rectangle) : intersects a b = intersects b a.
Proof.
  unfold intersects.
  destruct (mapM (contains a) (vertices b)) as [mine | e1] eqn:Ha;
    destruct (mapM (contains b) (vertices a)) as [theirs | e2] eqn:Hb;
    cbn [bind]; try reflexivity.
  - f_equal. rewrite !any_app. apply orb_comm.
  - rewrite (mapM_contains_raises _ _ _ Ha), (mapM_contains_raises _ _ _ Hb).
    reflexivity.
Qed.

(** X5: [intersects] is symmetric: for any two rectangles, of any class,
    [a.intersects(b)] and [b.intersects(a)] give the same answer, and fail
    together, with the same exception, when a projection is degenerate; the
    only exception that [contains] and [intersects] can raise is the
    degenerate projection. *)
Theorem intersects_symmetric :
  forall a b : Rectangle,
    intersects a b = intersects b a /\
    (forall e, intersects a b = Raise e -> e = DegenerateGeometry) /\
    (forall p e, contains a p = Raise e -> e = DegenerateGeometry).
Proof.
  intros a b. split; [apply intersects_comm |].
  split; [| intros p e; apply contains_raises].
  intros e. unfold intersects.
  destruct (mapM (contains a) (vertices b)) as [mine | e1] eqn:Ha; cbn [bind].
  - destruct (mapM (contains b) (vertices a)) as [theirs | e2] eqn:Hb;
      cbn [bind]; [discriminate |].
    intros Heq. injection Heq as <-. apply (mapM_contains_raises _ _ _ Hb).
  - intros Heq. injection Heq as <-. apply (mapM_contains_raises _ _ _ Ha).
Qed.

Lemma within_bounds_false (bl : Point.t) (w h : R) (p : Point.t) :
  Point.x p < Point.x bl \/ Point.x bl + w < Point.x p \/
  Point.y p < Point.y bl \/ Point.y bl + h < Point.y p ->
  within_bounds bl w h p = false.
Proof.
  intros Hout. apply not_true_iff_false. unfold within_bounds. bool_to_prop.
  intros [[[H1 H2] H3] H4]. lra.
Qed.

Lemma vertices_upright_corners (bl : Point.t) (w h a : R) :
  vertices (Rectangle_init Upright bl w h a) = corners bl w h.
Proof.
  rewrite vertices_upright. unfold corners. destruct bl as [bx by_]. simpl.
  repeat (f_equal; try (apply Point_eq; ring)).
Qed.

Lemma upright_intersects (bl1 : Point.t) (w1 h1 a1 : R)
      (bl2 : Point.t) (w2 h2 a2 : R) :
  intersects (Rectangle_init Upright bl1 w1 h1 a1)
             (Rectangle_init Upright bl2 w2 h2 a2) =
  Ok (any (map (within_bounds bl1 w1 h1) (corners bl2 w2 h2) ++
           map (within_bounds bl2 w2 h2) (corners bl1 w1 h1))).
Proof.
  unfold intersects. rewrite !vertices_upright_corners.
  rewrite (mapM_total _ (within_bounds bl1 w1 h1)) by (intro; apply upright_contains).
  unfold bind at 1.
  rewrite (mapM_total _ (within_bounds bl2 w2 h2)) by (intro; apply upright_contains).
  reflexivity.
Qed.

(** X6: [intersects] only looks for a vertex of one rectangle inside the
    other.  Two upright rectangles that cross like a plus sign (the x range
    of the second strictly inside the x range of the first, the y range of
    the first strictly inside the y range of the second) are reported as
    not intersecting, in either order, although both contain the point
    (x of the second's anchor, y of the first's anchor). *)
Theorem intersects_misses_crossing :
  forall (ax ay aw ah bx by_ bw bh a1 a2 : R),
    ax < bx -> bx + bw < ax + aw ->
    by_ < ay -> ay + ah < by_ + bh ->
    0 <= bw -> 0 <= ah ->
    let A := Rectangle_init Upright (Point.mk ax ay) aw ah a1 in
    let B := Rectangle_init Upright (Point.mk bx by_) bw bh a2 in
    intersects A B = Ok false /\
    intersects B A = Ok false /\
    contains A (Point.mk bx ay) = Ok true /\
    contains B (Point.mk bx ay) = Ok true.
Proof.
  intros ax ay aw ah bx by_ bw bh a1 a2 Hx1 Hx2 Hy1 Hy2 Hbw Hah A B.
  assert (Hab : intersects A B = Ok false).
  { unfold A, B. rewrite upright_intersects. f_equal.
    unfold corners, any. cbn [map app existsb Point.x Point.y].
    repeat (apply orb_false_intro); try reflexivity;
      apply within_bounds_false; cbn [Point.x Point.y]; lra. }
  split; [exact Hab |].
  split; [rewrite intersects_comm; exact Hab |].
  unfold A, B. rewrite !upright_contains.
  split; f_equal; unfold within_bounds; cbn [Point.x Point.y];
    bool_to_prop; repeat split; lra.
Qed.

Lemma intersects_misses_crossing_witness :
  intersects (Rectangle_init Upright (Point.mk 0 1) 3 1 0)
             (Rectangle_init Upright (Point.mk 1 0) 1 3 0) = Ok false /\
  contains (Rectangle_init Upright (Point.mk 0 1) 3 1 0) (Point.mk 1 1) = Ok true /\
  contains (Rectangle_init Upright (Point.mk 1 0) 1 3 0) (Point.mk 1 1) = Ok true.
Proof.
  destruct (intersects_misses_crossing 0 1 3 1 1 0 1 3 0 0)
    as [Hab [_ [Ha Hb]]]; try lra.
  split; [exact Hab |]. split; [exact Ha | exact Hb].
Defined.

(** ** A committed move *)

Lemma contains_setAngle (bl : Point.t) (w h a : R) (p : Point.t) :
  contains (Rectangle_init Oriented bl w h (setAngle a)) p =
  contains (Rectangle_init Oriented bl w h a) p.
Proof.
  unfold contains, Rectangle_contains, vertex.
  rewrite vertices_setAngle. reflexivity.
Qed.

(** X7: when a robot takes the pose of a candidate that the Rectangle
    constructor built (class Rectangle, any angle, normalised or not), the
    robot's body has the candidate's stored angle, vertices and center and
    contains the same points as the candidate; taking the same pose again
    changes nothing. *)
Theorem setPosition_takes_candidate :
  forall (self : Robot.t) (bl : Point.t) (w h a : R),
    let rec := Rectangle_init Oriented bl w h a in
    let self' := Robot.setPosition self rec in
    angle (Robot.body self') = angle rec /\
    vertices (Robot.body self') = vertices rec /\
    center (Robot.body self') = center rec /\
    (forall p, contains (Robot.body self') p = contains rec p) /\
    Robot.setPosition self' rec = self'.
Proof.
  intros self bl w h a rec self'.
  assert (Hbody : Robot.body self' = Rectangle_init Oriented bl w h (setAngle a))
    by reflexivity.
  rewrite Hbody.
  split; [apply setAngle_fixed, setAngle_range |].
  split; [apply vertices_setAngle |].
  split; [apply center_setAngle |].
  split; [intro p; apply contains_setAngle | reflexivity].
Qed.

(** ** The gun on the robot's axis *)

Lemma gun_vertices (bl : Point.t) (a : R) :
  let b := Rectangle_init Oriented bl Robot.width Robot.height a in
  vertices (Robot.getGun b) =
  vertices (Rectangle_init Oriented (Robot.gun_anchor b)
                           Robot.gun_length Robot.gun_width a).
Proof.
  intros b. unfold Robot.getGun.
  change (angle b) with (setAngle a). apply vertices_setAngle.
Qed.

(** X8: for a robot of the standard size (50 by 30) at any anchor and any
    angle, the gun lies on the robot's long axis: the middle of the gun's
    rear edge is the center of the body, the center of the gun is 25 ahead
    of the center of the body along the width axis, and the middle of its
    front edge is 50 ahead. *)
Theorem gun_on_robot_axis :
  forall (team : TeamName) (bl : Point.t) (a : R),
    let r := Robot.init team bl a in
    let c := center (Robot.body r) in
    let g := Robot.gun r in
    Point.midpoint (vertex g 0) (vertex g 3) = c /\
    center g =
      Point.move c (25 * cos (radians a)) (25 * sin (radians a)) /\
    Point.midpoint (vertex g 1) (vertex g 2) =
      Point.move c (50 * cos (radians a)) (50 * sin (radians a)).
Proof.
  intros team bl a r c g.
  assert (Hv : vertices g =
               vertices (Rectangle_init Oriented
                           (Robot.gun_anchor (Robot.body r))
                           Robot.gun_length Robot.gun_width a))
    by apply gun_vertices.
  assert (Hc : center g = Point.midpoint (vertex g 0) (vertex g 2)).
  { unfold g. simpl Robot.gun. unfold Robot.getGun.
    reflexivity. }
  unfold vertex in *. rewrite Hc. rewrite !Hv. rewrite vertices_oriented.
  unfold c. simpl Robot.body. rewrite center_oriented.
  unfold Robot.gun_anchor, vertex. rewrite vertices_oriented, center_oriented.
  destruct bl as [bx by_].
  unfold Point.midpoint, Point.move, Robot.gun_length, Robot.gun_width,
    Robot.width, Robot.height.
  cbn [nth Point.x Point.y bottom_left Rectangle_init].
  repeat split; apply Point_eq; field.
Qed.

(** * Further properties of the robot *)

(** ** Damage adds up *)

Lemma Rmax_clamp (x s : R) : 0 <= s -> Rmax 0 (Rmax 0 x - s) = Rmax 0 (x - s).
Proof.
  intros Hs. unfold Rmax.
  destruct (Rle_dec 0 x); destruct (Rle_dec 0 (x - s));
    destruct (Rle_dec 0 (0 - s)); try destruct (Rle_dec 0 (x - s)); lra.
Qed.

Lemma total_nonneg (amounts : list R) :
  Forall (fun a => 0 <= a) amounts -> 0 <= total amounts.
Proof.
  induction 1 as [| a rest Ha _ IH]; simpl; lra.
Qed.

Lemma reduceHealth_buff (r : Robot.t) (a : R) :
  Robot.hasDefenseBuff (Robot.reduceHealth r a) = Robot.hasDefenseBuff r.
Proof. rewrite reduceHealth_keeps. reflexivity. Qed.

Lemma reduceHealth_total (amounts : list R) :
  forall r : Robot.t,
    0 <= Robot.health r -> Forall (fun a => 0 <= a) amounts ->
    fold_left Robot.reduceHealth amounts r =
    Robot.set_health r
      (Rmax 0 (Robot.health r -
               (if Robot.hasDefenseBuff r then total amounts / 2
                else total amounts))).
Proof.
  induction amounts as [| a rest IH]; intros r Hh Hall.
  - simpl. replace (if Robot.hasDefenseBuff r then 0 / 2 else 0) with 0
      by (destruct (Robot.hasDefenseBuff r); lra).
    rewrite Rminus_0_r, Rmax_right by exact Hh. destruct r; reflexivity.
  - inversion Hall as [| a' rest' Ha Hrest]; subst.
    pose proof (total_nonneg rest Hrest) as Hsum.
    cbn [fold_left].
    destruct (reduceHealth_bounds r a Hh Ha) as [Hlo _].
    rewrite (IH _ Hlo Hrest), reduceHealth_buff.
    rewrite (reduceHealth_keeps r a) at 1. unfold Robot.set_health. simpl.
    f_equal. rewrite reduceHealth_health. cbn [total fold_right].
    fold (total rest).
    destruct (Robot.alive r) eqn:Halive.
    + destruct (Robot.hasDefenseBuff r);
        rewrite Rmax_clamp by lra; f_equal; lra.
    + unfold Robot.alive in Halive. apply Rltb_false in Halive.
      assert (Hz : Robot.health r = 0) by lra. rewrite Hz.
      destruct (Robot.hasDefenseBuff r); rewrite !Rmax_left by lra; reflexivity.
Qed.

Lemma total_Permutation (xs ys : list R) :
  Permutation xs ys -> total xs = total ys.
Proof.
  induction 1 as [| x xs ys _ IH | x y xs | xs ys zs _ IH1 _ IH2]; simpl;
    try fold (total xs); try fold (total ys); lra.
Qed.

(** X9: damage adds up.  After any sequence of [reduceHealth] calls with
    non-negative amounts on a robot of non-negative health, the health is
    max(0, health - sum of the amounts), the sum halved when the defense
    buff is on, and no other field of the robot has changed; the same
    amounts in another order leave the same robot. *)
Theorem reduceHealth_accumulates :
  forall (r : Robot.t) (amounts : list R),
    0 <= Robot.health r ->
    Forall (fun a => 0 <= a) amounts ->
    fold_left Robot.reduceHealth amounts r =
    Robot.set_health r
      (Rmax 0 (Robot.health r -
               (if Robot.hasDefenseBuff r then total amounts / 2
                else total amounts))) /\
    (forall reordered : list R,
        Permutation amounts reordered ->
        fold_left Robot.reduceHealth reordered r =
        fold_left Robot.reduceHealth amounts r).
Proof.
  intros r amounts Hh Hall.
  split; [apply reduceHealth_total; assumption |].
  intros reordered Hperm.
  rewrite !reduceHealth_total; try assumption.
  - rewrite (total_Permutation _ _ Hperm). reflexivity.
  - apply (Permutation_Forall Hperm). exact Hall.
Qed.

Lemma reduceHealth_accumulates_witness :
  fold_left Robot.reduceHealth [20; 50; 45] (Robot.init BLUE (Point.mk 0 0) 0) =
  Robot.set_health (Robot.init BLUE (Point.mk 0 0) 0)
                   (Rmax 0 (100 - (20 + (50 + (45 + 0))))).
Proof.
  apply (reduceHealth_accumulates (Robot.init BLUE (Point.mk 0 0) 0) [20; 50; 45]).
  - simpl. lra.
  - repeat constructor; lra.
Defined.

(** ** Ticks of a robot *)

Lemma setPosition_state (self : Robot.t) (rec : Rectangle) :
  Robot.health (Robot.setPosition self rec) = Robot.health self /\
  Robot.defenseBuffTimer (Robot.setPosition self rec) =
    Robot.defenseBuffTimer self /\
  Robot.bullet (Robot.setPosition self rec) = Robot.bullet self /\
  Robot.team (Robot.setPosition self rec) = Robot.team self.
Proof. destruct rec; repeat split. Qed.

Lemma execute_state (isObstructed : Rectangle -> Robot.t -> bool)
      (self : Robot.t) (action : Robot.Action) :
  Robot.health (Robot.execute isObstructed self action) = Robot.health self /\
  Robot.defenseBuffTimer (Robot.execute isObstructed self action) =
    Robot.defenseBuffTimer self /\
  Robot.bullet (Robot.execute isObstructed self action) = Robot.bullet self /\
  Robot.team (Robot.execute isObstructed self action) = Robot.team self.
Proof.
  unfold Robot.execute. destruct (action self) as [rec |]; [| repeat split].
  destruct (isObstructed rec self); [repeat split |].
  apply setPosition_state.
Qed.

Lemma execute_all_state (isObstructed : Rectangle -> Robot.t -> bool)
      (actions : list Robot.Action) :
  forall self : Robot.t,
    Robot.health (fold_left (Robot.execute isObstructed) actions self) =
      Robot.health self /\
    Robot.defenseBuffTimer (fold_left (Robot.execute isObstructed) actions self) =
      Robot.defenseBuffTimer self /\
    Robot.bullet (fold_left (Robot.execute isObstructed) actions self) =
      Robot.bullet self /\
    Robot.team (fold_left (Robot.execute isObstructed) actions self) =
      Robot.team self.
Proof.
  induction actions as [| action rest IH]; intros self; simpl;
    [repeat split |].
  destruct (IH (Robot.execute isObstructed self action)) as [H1 [H2 [H3 H4]]].
  destruct (execute_state isObstructed self action) as [E1 [E2 [E3 E4]]].
  rewrite H1, H2, H3, H4. repeat split; assumption.
Qed.

Lemma act_state (isObstructed : Rectangle -> Robot.t -> bool)
      (getStrategy : option (Robot.t -> Robot.Decision)) (self : Robot.t) :
  0 < Robot.health self ->
  Robot.health (Robot.act isObstructed getStrategy self) = Robot.health self /\
  Robot.defenseBuffTimer (Robot.act isObstructed getStrategy self) =
    (Robot.defenseBuffTimer self - 1)%Z /\
  Robot.bullet (Robot.act isObstructed getStrategy self) = Robot.bullet self /\
  Robot.team (Robot.act isObstructed getStrategy self) = Robot.team self.
Proof.
  intros Hlive. apply alive_iff in Hlive. unfold Robot.act. rewrite Hlive.
  set (ticked := Robot.set_defenseBuffTimer self
                   (Robot.defenseBuffTimer self - 1)%Z).
  destruct getStrategy as [decide |]; [| repeat split].
  destruct (decide ticked) as [| action | actions]; [repeat split | |].
  - destruct (execute_state isObstructed ticked action) as [E1 [E2 [E3 E4]]].
    rewrite E1, E2, E3, E4. repeat split.
  - destruct (execute_all_state isObstructed actions ticked)
      as [E1 [E2 [E3 E4]]].
    rewrite E1, E2, E3, E4. repeat split.
Qed.

Lemma act_dead (isObstructed : Rectangle -> Robot.t -> bool)
      (getStrategy : option (Robot.t -> Robot.Decision)) (self : Robot.t) :
  Robot.health self <= 0 -> Robot.act isObstructed getStrategy self = self.
Proof.
  intros Hdead. unfold Robot.act, Robot.alive, Rltb.
  destruct (Rlt_dec 0 (Robot.health self)); [lra | reflexivity].
Qed.

Lemma acts_state (isObstructed : Rectangle -> Robot.t -> bool)
      (getStrategy : option (Robot.t -> Robot.Decision)) (n : nat) :
  forall self : Robot.t,
    0 < Robot.health self ->
    Robot.health (Nat.iter n (Robot.act isObstructed getStrategy) self) =
      Robot.health self /\
    Robot.defenseBuffTimer (Nat.iter n (Robot.act isObstructed getStrategy) self) =
      (Robot.defenseBuffTimer self - Z.of_nat n)%Z.
Proof.
  induction n as [| n IH]; intros self Hlive.
  - simpl. split; [reflexivity | lia].
  - rewrite Nat.iter_succ. destruct (IH self Hlive) as [Hh Ht].
    destruct (act_state isObstructed getStrategy
                (Nat.iter n (Robot.act isObstructed getStrategy) self))
      as [Ah [At _]]; [rewrite Hh; exact Hlive |].
    rewrite Ah, At, Hh, Ht. split; [reflexivity | lia].
Qed.

(** X10: whatever the strategy decides and whatever the environment
    obstructs, [act] on a live robot lowers the defense-buff timer by one
    and leaves health, ammunition and team alone; after [n] calls the timer
    is [n] lower, with no floor at 0.  So a buff given by
    [addDefenseBuff(t)] is on for exactly the first [t * 1000] calls of
    [act].  On a robot whose health is not positive [act] does nothing. *)
Theorem act_counts_down_buff :
  forall (isObstructed : Rectangle -> Robot.t -> bool)
         (getStrategy : option (Robot.t -> Robot.Decision))
         (self : Robot.t) (n : nat),
    0 < Robot.health self ->
    let after := Nat.iter n (Robot.act isObstructed getStrategy) in
    Robot.health (after self) = Robot.health self /\
    Robot.defenseBuffTimer (after self) =
      (Robot.defenseBuffTimer self - Z.of_nat n)%Z /\
    (forall t : Z,
        Robot.hasDefenseBuff (after (Robot.addDefenseBuff self t)) = true <->
        (Z.of_nat n < t * 1000)%Z) /\
    (forall dead : Robot.t,
        Robot.health dead <= 0 ->
        Robot.act isObstructed getStrategy dead = dead).
Proof.
  intros isObstructed getStrategy self n Hlive after.
  destruct (acts_state isObstructed getStrategy n self Hlive) as [Hh Ht].
  split; [exact Hh |]. split; [exact Ht |].
  split; [| intros dead; apply act_dead].
  intros t. unfold after, Robot.hasDefenseBuff.
  destruct (acts_state isObstructed getStrategy n (Robot.addDefenseBuff self t))
    as [_ Ht']; [exact Hlive |].
  rewrite Ht'. simpl. rewrite Z.ltb_lt. lia.
Qed.

Lemma act_counts_down_buff_witness :
  Robot.defenseBuffTimer
    (Nat.iter 3 (Robot.act left_of_field
                           (Some (fun _ => Robot.Single step_right)))
              (Robot.init BLUE (Point.mk 0 0) 0)) = (0 - 3)%Z.
Proof.
  apply (act_counts_down_buff left_of_field
           (Some (fun _ => Robot.Single step_right))
           (Robot.init BLUE (Point.mk 0 0) 0) 3).
  simpl. lra.
Defined.

(** ** What every robot satisfies *)

Lemma wellformed_setPosition (self : Robot.t) (rec : Rectangle) :
  0 <= Robot.health self <= 100 ->
  Robot_wellformed (Robot.setPosition self rec).
Proof.
  intros Hh. destruct rec as [c bl w h a ar vs ctr].
  unfold Robot_wellformed. simpl.
  split; [reflexivity |]. split; [reflexivity |].
  split; [apply setAngle_range |].
  split; [reflexivity |]. split; [reflexivity | exact Hh].
Qed.

Lemma wellformed_execute (isObstructed : Rectangle -> Robot.t -> bool)
      (self : Robot.t) (action : Robot.Action) :
  Robot_wellformed self ->
  Robot_wellformed (Robot.execute isObstructed self action).
Proof.
  intros Hwf. unfold Robot.execute.
  destruct (action self) as [rec |]; [| exact Hwf].
  destruct (isObstructed rec self); [exact Hwf |].
  apply wellformed_setPosition. apply Hwf.
Qed.

Lemma wellformed_execute_all (isObstructed : Rectangle -> Robot.t -> bool)
      (actions : list Robot.Action) :
  forall self : Robot.t,
    Robot_wellformed self ->
    Robot_wellformed (fold_left (Robot.execute isObstructed) actions self).
Proof.
  induction actions as [| action rest IH]; intros self Hwf; simpl;
    [exact Hwf |].
  apply IH, wellformed_execute, Hwf.
Qed.

Lemma wellformed_set_timer (self : Robot.t) (v : Z) :
  Robot_wellformed self -> Robot_wellformed (Robot.set_defenseBuffTimer self v).
Proof. intros Hwf. exact Hwf. Qed.

Lemma wellformed_step (isObstructed : Rectangle -> Robot.t -> bool)
      (r r' : Robot.t) :
  Robot_step isObstructed r r' -> Robot_wellformed r -> Robot_wellformed r'.
Proof.
  intros Hstep Hwf. destruct Hstep as [strat r | action r | rec r
                                      | amount r Ha | num r | time r].
  - unfold Robot.act. destruct (Robot.alive r); [| exact Hwf].
    pose proof (wellformed_set_timer r (Robot.defenseBuffTimer r - 1) Hwf)
      as Hticked.
    destruct strat as [decide |]; [| exact Hticked].
    destruct (decide _) as [| action | actions]; [exact Hticked | |].
    + apply wellformed_execute, Hticked.
    + apply wellformed_execute_all, Hticked.
  - apply wellformed_execute, Hwf.
  - apply wellformed_setPosition, Hwf.
  - destruct Hwf as [Hg [Hc [Ha' [Hv [Hctr Hh]]]]].
    pose proof (reduceHealth_bounds r amount (proj1 Hh) Ha) as Hb.
    rewrite reduceHealth_keeps. unfold Robot_wellformed.
    cbn [Robot.set_health Robot.gun Robot.body Robot.health].
    repeat split; try assumption; try apply Ha'; lra.
  - exact Hwf.
  - exact Hwf.
Qed.

(** X11: every robot that the constructor builds and that [act],
    [execute], [setPosition], [reduceHealth] (with non-negative amounts),
    [load] and [addDefenseBuff] then change, in any order and number, has
    its gun derived from its current body, a body of class Rectangle with
    an angle in [0, 360) whose vertices and center are the ones computed
    from its anchor, sizes and angle, and a health between 0 and 100. *)
Theorem robot_stays_wellformed :
  forall (isObstructed : Rectangle -> Robot.t -> bool) (r : Robot.t),
    Robot_reachable isObstructed r -> Robot_wellformed r.
Proof.
  intros isObstructed r Hreach.
  induction Hreach as [team bl a | r r' _ IH Hstep].
  - unfold Robot_wellformed. simpl.
    split; [reflexivity |]. split; [reflexivity |].
    split; [apply setAngle_range |].
    split; [reflexivity |]. split; [reflexivity | lra].
  - apply (wellformed_step isObstructed r r' Hstep IH).
Qed.

Lemma robot_stays_wellformed_witness :
  Robot_wellformed
    (Robot.execute left_of_field
       (Robot.reduceHealth (Robot.init BLUE (Point.mk 0 0) 0) 20)
       step_right).
Proof.
  apply (robot_stays_wellformed left_of_field).
  eapply reach_step; [| apply step_execute].
  eapply reach_step; [apply reach_init |].
  apply step_reduceHealth. lra.
Defined.

(** * Further properties of the zones *)

Lemma loads_from (n : nat) :
  forall (z : LoadingZone.t) (robot : Robot.t) (k : Z),
    LoadingZone.instance_life z = Some k -> (0 <= k)%Z ->
    loads n z robot =
    Ok (LoadingZone.mk (LoadingZone.zone z) (LoadingZone.team z)
                       (Some (Z.max 0 (k - Z.of_nat n))),
        Robot.set_bullet robot
          (Robot.bullet robot + 100 * Z.min (Z.of_nat n) k)%Z).
Proof.
  induction n as [| n IH]; intros z robot k Hlife Hk.
  - cbn [loads].
    replace (Z.max 0 (k - Z.of_nat 0)) with k by lia.
    replace (Robot.bullet robot + 100 * Z.min (Z.of_nat 0) k)%Z
      with (Robot.bullet robot) by lia.
    rewrite <- Hlife. destruct z, robot. reflexivity.
  - cbn [loads]. unfold LoadingZone.load, LoadingZone.life. rewrite Hlife.
    destruct (k <=? 0)%Z eqn:Hle.
    + apply Z.leb_le in Hle. assert (k = 0%Z) by lia. subst k.
      cbn [bind fst snd]. rewrite (IH z robot 0%Z Hlife Hk).
      replace (Z.max 0 (0 - Z.of_nat n)) with (Z.max 0 (0 - Z.of_nat (S n)))
        by lia.
      replace (Z.min (Z.of_nat n) 0) with (Z.min (Z.of_nat (S n)) 0) by lia.
      reflexivity.
    + apply Z.leb_gt in Hle. cbn [bind fst snd LoadingZone.aligned].
      rewrite (IH _ _ (k - 1)%Z) by (simpl; try reflexivity; lia).
      cbn [LoadingZone.zone LoadingZone.team].
      replace (Z.max 0 (k - 1 - Z.of_nat n)) with (Z.max 0 (k - Z.of_nat (S n)))
        by lia.
      unfold Robot.load, Robot.set_bullet.
      cbn [Robot.body Robot.health Robot.gun_angle Robot.team
           Robot.defenseBuffTimer Robot.gun Robot.gun_heat Robot.bullet].
      replace (Robot.bullet robot + 100 + 100 * Z.min (Z.of_nat n) (k - 1))%Z
        with (Robot.bullet robot + 100 * Z.min (Z.of_nat (S n)) k)%Z by lia.
      reflexivity.
Qed.

(** X12: a loading zone whose life was set by [reset] never fails and hands
    out at most 300: after [n] calls of [load] in a row the robot's
    ammunition has grown by 100 * min(n, 3), nothing else of the robot has
    changed, and the zone's life is max(0, 3 - n). *)
Theorem loads_after_reset :
  forall (z : LoadingZone.t) (robot : Robot.t) (n : nat),
    loads n (LoadingZone.reset z) robot =
    Ok (LoadingZone.mk (LoadingZone.zone z) (LoadingZone.team z)
                       (Some (Z.max 0 (3 - Z.of_nat n))),
        Robot.set_bullet robot
          (Robot.bullet robot + 100 * Z.min (Z.of_nat n) 3)%Z).
Proof.
  intros z robot n.
  apply (loads_from n (LoadingZone.reset z) robot 3%Z); [reflexivity | lia].
Qed.

Lemma TeamName_eqb_eq (a b : TeamName) : TeamName_eqb a b = true <-> a = b.
Proof. destruct a, b; simpl; split; intros; congruence. Qed.

(** X22: [load] never asks whether the robot may use the zone.  A loading
    zone is permissible exactly for its own team, yet a robot of the other
    team, for which [permissble] is false, is loaded like any other: with
    life [k > 0] it receives 100 and uses up one life. *)
Theorem load_ignores_permission :
  forall (z : LoadingZone.t) (robot : Robot.t) (k : Z),
    LoadingZone.instance_life z = Some k -> (0 < k)%Z ->
    LoadingZone_permissble z (Robot.team robot) = false ->
    Robot.team robot <> LoadingZone.team z /\
    LoadingZone.load z robot =
    Ok (LoadingZone.mk (LoadingZone.zone z) (LoadingZone.team z)
                       (Some (k - 1)%Z),
        Robot.load robot 100) /\
    (forall team, LoadingZone_permissble z team = true <->
                  team = LoadingZone.team z).
Proof.
  intros z robot k Hlife Hk Hdenied.
  split.
  { intros Heq. unfold LoadingZone_permissble in Hdenied.
    rewrite Heq in Hdenied.
    assert (Htrue : TeamName_eqb (LoadingZone.team z) (LoadingZone.team z) = true)
      by (apply TeamName_eqb_eq; reflexivity).
    congruence. }
  split.
  - unfold LoadingZone.load, LoadingZone.life. rewrite Hlife.
    assert (Hgt : (k <=? 0)%Z = false) by (apply Z.leb_gt; exact Hk).
    rewrite Hgt. reflexivity.
  - intros team. unfold LoadingZone_permissble. rewrite TeamName_eqb_eq.
    split; intros; congruence.
Qed.

Lemma load_ignores_permission_witness :
  LoadingZone.load
    (LoadingZone.reset (LoadingZone.init (Point.mk 0 0) 10 10 RED))
    (Robot.init BLUE (Point.mk 0 0) 0) =
  Ok (LoadingZone.mk
        (LoadingZone.zone (LoadingZone.init (Point.mk 0 0) 10 10 RED)) RED
        (Some (3 - 1)%Z),
      Robot.load (Robot.init BLUE (Point.mk 0 0) 0) 100).
Proof.
  apply (load_ignores_permission
           (LoadingZone.reset (LoadingZone.init (Point.mk 0 0) 10 10 RED))
           (Robot.init BLUE (Point.mk 0 0) 0) 3); [reflexivity | lia | reflexivity].
Defined.

(** * Further properties of the bullet *)

Lemma hit_some (bodies bodies' : list Body) (p v : Point.t) :
  Bullet.hit bodies p v = Ok (Some bodies') ->
  exists pre block post,
    bodies = pre ++ block :: post /\
    bodies' = pre ++ Body_reduceHealth block Bullet.damage :: post /\
    (forall b, In b pre -> Body_blocks b p v = Ok false) /\
    Body_blocks block p v = Ok true.
Proof.
  revert bodies'. induction bodies as [| b rest IH]; intros bodies' Hhit.
  - discriminate.
  - cbn [Bullet.hit] in Hhit.
    destruct (Body_blocks b p v) as [[|] | e] eqn:Hb; cbn [bind] in Hhit;
      [| | discriminate].
    + injection Hhit as <-. exists [], b, rest.
      split; [reflexivity |]. split; [destruct b; reflexivity |].
      split; [intros b' [] | exact Hb].
    + destruct (Bullet.hit rest p v) as [[later |] | e] eqn:Hrest;
        cbn [bind option_map] in Hhit; try discriminate.
      injection Hhit as <-.
      destruct (IH later eq_refl) as [pre [block [post [H1 [H2 [H3 H4]]]]]].
      exists (b :: pre), block, post. subst rest later.
      split; [reflexivity |]. split; [reflexivity |].
      split; [| exact H4].
      intros b' [<- | Hin]; [exact Hb | apply H3; exact Hin].
Qed.

Lemma hit_none_inv (bodies : list Body) (p v : Point.t) :
  Bullet.hit bodies p v = Ok None ->
  forall b, In b bodies -> Body_blocks b p v = Ok false.
Proof.
  induction bodies as [| b rest IH]; intros Hhit b' Hin; [destruct Hin |].
  cbn [Bullet.hit] in Hhit.
  destruct (Body_blocks b p v) as [[|] | e] eqn:Hb; cbn [bind] in Hhit;
    try discriminate.
  destruct (Bullet.hit rest p v) as [[later |] | e] eqn:Hrest;
    cbn [bind option_map] in Hhit; try discriminate.
  destruct Hin as [<- | Hin]; [exact Hb | apply IH; [reflexivity | exact Hin]].
Qed.

Lemma act_outcomes (self : Bullet.t) (env : Env)
      (self' : Bullet.t) (env' : Env) :
  Bullet.act self env = Ok (self', env') -> act_outcome self env self' env'.
Proof.
  unfold Bullet.act.
  destruct (Bullet.active self) eqn:Hactive; cbn [negb].
  2:{ intros Heq. injection Heq as <- <-. apply outcome_idle. exact Hactive. }
  destruct (0 <? Bullet.delay self)%Z eqn:Hdelay.
  { intros Heq. injection Heq as <- <-. apply Z.ltb_lt in Hdelay.
    apply outcome_wait; assumption. }
  apply Z.ltb_ge in Hdelay.
  fold (next_point self). fold (move_vec self).
  destruct (Bullet.hit (unpenetrables env) (next_point self) (move_vec self))
    as [[bodies |] | e] eqn:Hhit; cbn [bind]; [| | discriminate].
  - intros Heq. injection Heq as <- <-.
    destruct (hit_some _ _ _ _ Hhit) as [pre [block [post [H1 [H2 [H3 H4]]]]]].
    subst bodies. apply outcome_blocked; assumption.
  - pose proof (hit_none_inv _ _ _ Hhit) as Hfree.
    destruct (isLegal env (next_point self)) eqn:Hlegal;
      intros Heq; injection Heq as <- <-.
    + apply outcome_moved; assumption.
    + apply outcome_left; assumption.
Qed.

Lemma act_left (self : Bullet.t) (env : Env) :
  Bullet.active self = true -> (Bullet.delay self <= 0)%Z ->
  (forall b, In b (unpenetrables env) ->
             Body_blocks b (next_point self) (move_vec self) = Ok false) ->
  isLegal env (next_point self) = false ->
  Bullet.act self env = Ok (Bullet.destruct self env).
Proof.
  intros Hactive Hdelay Hfree Hlegal. unfold Bullet.act.
  rewrite Hactive. cbn [negb].
  destruct (0 <? Bullet.delay self)%Z eqn:Hd; [apply Z.ltb_lt in Hd; lia |].
  fold (next_point self). fold (move_vec self).
  rewrite hit_none by exact Hfree.
  cbn [bind]. rewrite Hlegal. reflexivity.
Qed.

(** X13: an active bullet with no delay left whose next sample point is
    blocked by no body and is not legal is deactivated where it is and
    removed from the live bullet collection; the other live bullets stay in
    their order, no body is touched, and nobody is damaged. *)
Theorem bullet_leaves_field :
  forall (self : Bullet.t) (env : Env),
    Bullet.active self = true ->
    (Bullet.delay self <= 0)%Z ->
    (forall b, In b (unpenetrables env) ->
               Body_blocks b (next_point self) (move_vec self) = Ok false) ->
    isLegal env (next_point self) = false ->
    exists (self' : Bullet.t) (env' : Env),
      Bullet.act self env = Ok (self', env') /\
      self' = Bullet.mk (Bullet.oid self) (Bullet.delay self)
                        (Bullet.speed self) (Bullet.travelled self)
                        (Bullet.point self) (Bullet.dir self)
                        (Bullet.team self) false /\
      unpenetrables env' = unpenetrables env /\
      bullets env' =
        filter (fun o => negb (Nat.eqb o (Bullet.oid self))) (bullets env) /\
      ~ In (Bullet.oid self) (bullets env').
Proof.
  intros self env Hactive Hdelay Hfree Hlegal.
  exists (fst (Bullet.destruct self env)), (snd (Bullet.destruct self env)).
  split; [rewrite act_left by assumption; reflexivity |].
  split; [reflexivity |]. split; [reflexivity |]. split; [reflexivity |].
  apply destruct_not_live.
Qed.

(** A field that ends at x = 20: the bullet [shot], flying from x = -20
    to x = 5, stays; flying on to x = 30 it would leave. *)
Lemma bullet_leaves_field_witness :
  exists (self' : Bullet.t) (env' : Env),
    Bullet.act (Bullet.init 7 (Point.mk 5 15) 0 BLUE)
               (mkEnv [] [7%nat; 8%nat] (fun p => Rleb (Point.x p) 20)) =
      Ok (self', env') /\
    Bullet.active self' = false /\ bullets env' = [8%nat].
Proof.
  destruct (bullet_leaves_field
              (Bullet.init 7 (Point.mk 5 15) 0 BLUE)
              (mkEnv [] [7%nat; 8%nat] (fun p => Rleb (Point.x p) 20)))
    as [self' [env' [Hact [Hself [_ [Hlive _]]]]]].
  - reflexivity.
  - simpl. lia.
  - intros b [].
  - rewrite next_point_dir0. simpl. apply Rleb_false. lra.
  - exists self', env'. split; [exact Hact |].
    split; [rewrite Hself; reflexivity | rewrite Hlive; reflexivity].
Defined.

Lemma acts_wait (n : nat) :
  forall (self : Bullet.t) (env : Env),
    Bullet.active self = true -> Bullet.delay self = Z.of_nat n ->
    acts n self env =
    Ok (Bullet.mk (Bullet.oid self) 0 (Bullet.speed self)
                  (Bullet.travelled self) (Bullet.point self) (Bullet.dir self)
                  (Bullet.team self) true, env).
Proof.
  induction n as [| n IH]; intros self env Hactive Hdelay.
  - cbn [acts]. destruct self. simpl in *. subst. reflexivity.
  - cbn [acts]. unfold Bullet.act. rewrite Hactive. cbn [negb].
    assert (Hpos : (0 <? Bullet.delay self)%Z = true)
      by (apply Z.ltb_lt; lia).
    rewrite Hpos. cbn [bind fst snd].
    rewrite IH; [reflexivity | reflexivity |].
    cbn [Bullet.delay]. lia.
Qed.

(** X14: the ignition delay counts ticks.  An active bullet with delay
    [n] is, after [n] calls of [act], the same bullet with delay 0: it has
    not moved, it has hit nothing, and the environment is as it was (it is
    the next call that takes the first step). *)
Theorem delay_counts_ticks :
  forall (n : nat) (self : Bullet.t) (env : Env),
    Bullet.active self = true ->
    Bullet.delay self = Z.of_nat n ->
    acts n self env =
    Ok (Bullet.mk (Bullet.oid self) 0 (Bullet.speed self)
                  (Bullet.travelled self) (Bullet.point self) (Bullet.dir self)
                  (Bullet.team self) true, env).
Proof.
  intros n self env. apply acts_wait.
Qed.

Lemma delay_counts_ticks_witness :
  acts 3 (Bullet.mk 7 3 25 0 (Point.mk 5 15) 0 BLUE true) busy_env =
  Ok (Bullet.mk 7 0 25 0 (Point.mk 5 15) 0 BLUE true, busy_env).
Proof.
  apply (delay_counts_ticks 3 (Bullet.mk 7 3 25 0 (Point.mk 5 15) 0 BLUE true));
    reflexivity.
Defined.

Lemma sample_0 (self : Bullet.t) : sample self 0 = Bullet.point self.
Proof.
  unfold sample, Point.move. destruct (Bullet.point self) as [px py]. simpl.
  apply Point_eq; ring.
Qed.

Lemma sample_1 (self : Bullet.t) : sample self 1 = next_point self.
Proof.
  unfold sample, next_point, Point.move. simpl. apply Point_eq; ring.
Qed.

Lemma sample_next (self : Bullet.t) (k : nat) :
  sample (Bullet.mk (Bullet.oid self) (Bullet.delay self) (Bullet.speed self)
                    (Bullet.travelled self) (next_point self) (Bullet.dir self)
                    (Bullet.team self) true) k =
  sample self (S k).
Proof.
  unfold sample, next_point, Point.move. cbn [Bullet.point Bullet.dir Bullet.speed Point.x Point.y].
  rewrite S_INR. apply Point_eq; ring.
Qed.

Lemma acts_free (n : nat) :
  forall (self : Bullet.t) (env : Env),
    Bullet.active self = true -> (Bullet.delay self <= 0)%Z ->
    (forall k, (1 <= k <= n)%nat ->
               (forall b v, In b (unpenetrables env) ->
                            Body_blocks b (sample self k) v = Ok false) /\
               isLegal env (sample self k) = true) ->
    acts n self env =
    Ok (Bullet.mk (Bullet.oid self) (Bullet.delay self) (Bullet.speed self)
                  (Bullet.travelled self) (sample self n) (Bullet.dir self)
                  (Bullet.team self) true, env).
Proof.
  induction n as [| n IH]; intros self env Hactive Hdelay Hclear.
  - cbn [acts]. rewrite sample_0, <- Hactive. destruct self. reflexivity.
  - cbn [acts].
    destruct (Hclear 1%nat) as [Hfree Hlegal]; [lia |].
    rewrite sample_1 in Hlegal.
    rewrite (act_free self env Hactive Hdelay); [| | exact Hlegal].
    2:{ intros b v Hin. rewrite <- sample_1. apply Hfree. exact Hin. }
    cbn [bind fst snd].
    rewrite IH; [| reflexivity | exact Hdelay |].
    + cbn [Bullet.oid Bullet.delay Bullet.speed Bullet.travelled Bullet.dir
           Bullet.team].
      rewrite sample_next. reflexivity.
    + intros k Hk. rewrite sample_next. apply Hclear. lia.
Qed.

(** X15: a bullet flies in a straight line at its speed.  If the first
    [n] sample points of an active bullet with no delay left (the points
    [k * speed] along its direction, k = 1..n) are legal and blocked by no
    body, then after [n] calls of [act] the bullet is at the [n]-th of
    them, still active, and the environment is unchanged. *)
Theorem bullet_flies_straight :
  forall (n : nat) (self : Bullet.t) (env : Env),
    Bullet.active self = true ->
    (Bullet.delay self <= 0)%Z ->
    (forall k, (1 <= k <= n)%nat ->
               (forall b v, In b (unpenetrables env) ->
                            Body_blocks b (sample self k) v = Ok false) /\
               isLegal env (sample self k) = true) ->
    acts n self env =
    Ok (Bullet.mk (Bullet.oid self) (Bullet.delay self) (Bullet.speed self)
                  (Bullet.travelled self)
                  (Point.move (Bullet.point self)
                     (INR n * (cos (Bullet.dir self) * Bullet.speed self))
                     (INR n * (sin (Bullet.dir self) * Bullet.speed self)))
                  (Bullet.dir self) (Bullet.team self) true,
        env).
Proof.
  intros n self env. apply acts_free.
Qed.

Lemma bullet_flies_straight_witness :
  acts 3 (Bullet.init 1 (Point.mk 0 0) 0 BLUE) quiet_env =
  Ok (Bullet.mk 1 0 25 0
        (Point.move (Point.mk 0 0)
                    (INR 3 * (cos (0 / 180 * PI) * 25))
                    (INR 3 * (sin (0 / 180 * PI) * 25)))
        (0 / 180 * PI) BLUE true,
      quiet_env).
Proof.
  apply (bullet_flies_straight 3 (Bullet.init 1 (Point.mk 0 0) 0 BLUE) quiet_env).
  - reflexivity.
  - simpl. lia.
  - intros k Hk.
    assert (Hx : Point.x (sample (Bullet.init 1 (Point.mk 0 0) 0 BLUE) k) < 100).
    { unfold sample, Point.move. cbn [Bullet.init Bullet.point Bullet.dir Bullet.speed Point.x].
      rewrite radian_0, cos_0.
      assert (Hk3 : INR k <= INR 3) by (apply le_INR; lia).
      simpl in Hk3. lra. }
    assert (Hy : Point.y (sample (Bullet.init 1 (Point.mk 0 0) 0 BLUE) k) < 100).
    { unfold sample, Point.move. cbn [Bullet.init Bullet.point Bullet.dir Bullet.speed Point.y].
      rewrite radian_0, sin_0. lra. }
    split; [| reflexivity].
    intros b v Hin. apply quiet_env_free; assumption.
Defined.

Lemma Body_reduceHealth_rectangle (b : Body) (amount : R) :
  Body_rectangle (Body_reduceHealth b amount) = Body_rectangle b /\
  isRobot (Body_reduceHealth b amount) = isRobot b.
Proof.
  destruct b as [r | r]; [split; reflexivity |].
  simpl. rewrite reduceHealth_keeps. split; reflexivity.
Qed.

Lemma act_bodies (self : Bullet.t) (env : Env) (self' : Bullet.t) (env' : Env) :
  Bullet.act self env = Ok (self', env') ->
  unpenetrables env' = unpenetrables env \/
  exists pre r post,
    unpenetrables env = pre ++ RobotBody r :: post /\
    unpenetrables env' =
      pre ++ RobotBody (Robot.reduceHealth r Bullet.damage) :: post /\
    Bullet.active self = true /\ Bullet.active self' = false.
Proof.
  intros Hact. apply act_outcomes in Hact.
  destruct Hact as [Hidle | Hactive Hdelay
                    | pre post block Hactive Hdelay Hbodies Hfree Hblock
                    | Hactive Hdelay Hfree Hlegal
                    | Hactive Hdelay Hfree Hlegal];
    try (left; reflexivity).
  destruct block as [obstacle | r].
  - left. simpl. symmetry. exact Hbodies.
  - right. exists pre, r, post. repeat split; assumption.
Qed.

(** X16: what one call of [act] never does.  Whatever the outcome, the
    bullet keeps its identity, speed, direction, team and travelled
    distance, is never re-activated and its delay never grows; no bullet is
    added to the live collection and the other bullets stay in it; the
    legality test is untouched; every body keeps its rectangle and its
    kind, and either no body changes or exactly one robot takes one
    [reduceHealth(20)] and the bullet ends inactive.  If an inactive
    bullet was not in the live collection before the call, an inactive
    bullet is not in it after the call. *)
Theorem act_frame :
  forall (self : Bullet.t) (env : Env) (self' : Bullet.t) (env' : Env),
    Bullet.act self env = Ok (self', env') ->
    (Bullet.oid self' = Bullet.oid self /\
     Bullet.speed self' = Bullet.speed self /\
     Bullet.dir self' = Bullet.dir self /\
     Bullet.team self' = Bullet.team self /\
     Bullet.travelled self' = Bullet.travelled self) /\
    (Bullet.active self' = true -> Bullet.active self = true) /\
    (Bullet.delay self' <= Bullet.delay self)%Z /\
    isLegal env' = isLegal env /\
    (forall o, In o (bullets env') -> In o (bullets env)) /\
    (forall o, o <> Bullet.oid self ->
               In o (bullets env) -> In o (bullets env')) /\
    ((Bullet.active self = false -> ~ In (Bullet.oid self) (bullets env)) ->
     Bullet.active self' = false -> ~ In (Bullet.oid self) (bullets env')) /\
    map Body_rectangle (unpenetrables env') =
      map Body_rectangle (unpenetrables env) /\
    map isRobot (unpenetrables env') = map isRobot (unpenetrables env) /\
    (unpenetrables env' = unpenetrables env \/
     exists pre r post,
       unpenetrables env = pre ++ RobotBody r :: post /\
       unpenetrables env' =
         pre ++ RobotBody (Robot.reduceHealth r Bullet.damage) :: post /\
       Bullet.active self = true /\ Bullet.active self' = false).
Proof.
  intros self env self' env' Hact.
  pose proof (act_bodies _ _ _ _ Hact) as Hbodies'.
  apply act_outcomes in Hact.
  assert (Hfilter : forall o,
             In o (filter (fun b => negb (Nat.eqb b (Bullet.oid self)))
                          (bullets env)) -> In o (bullets env))
    by (intros o Hin; apply filter_In in Hin; apply Hin).
  destruct Hact as [Hidle | Hactive Hdelay
                    | pre post block Hactive Hdelay Hbodies Hfree Hblock
                    | Hactive Hdelay Hfree Hlegal
                    | Hactive Hdelay Hfree Hlegal].
  - repeat split; auto; try lia. 
  - repeat split; auto; cbn [Bullet.delay Bullet.active]; try lia; congruence.
  - split; [repeat split |]. split; [discriminate |].
    split; [cbn; lia |]. split; [reflexivity |].
    split; [exact Hfilter |].
    split; [intros o Hne Hin; apply (destruct_keeps_others self env o Hne); exact Hin |].
    split; [intros _ _; apply (destruct_not_live self env) |].
    destruct (Body_reduceHealth_rectangle block Bullet.damage) as [Hr Hk].
    split; [| split; [| exact Hbodies']];
      cbn [unpenetrables]; rewrite Hbodies, !map_app; cbn [map];
      rewrite ?Hr, ?Hk; reflexivity.
  - repeat split; auto; cbn [Bullet.delay Bullet.active]; try lia; congruence.
  - split; [repeat split |]. split; [discriminate |].
    split; [cbn; lia |]. split; [reflexivity |].
    split; [exact Hfilter |].
    split; [intros o Hne Hin; apply (destruct_keeps_others self env o Hne); exact Hin |].
    split; [intros _ _; apply (destruct_not_live self env) |].
    split; [reflexivity |]. split; [reflexivity | left; reflexivity].
Qed.

Lemma shot_hits_busy_env :
  Bullet.act shot busy_env =
  Ok (fst (Bullet.destruct shot busy_env),
      mkEnv ([StaticBody far_obstacle] ++
             Body_reduceHealth (RobotBody (Robot.init RED (Point.mk 0 0) 0))
                               Bullet.damage ::
             [RobotBody (Robot.init RED (Point.mk 100 0) 0)])
            (bullets (snd (Bullet.destruct shot busy_env)))
            (isLegal busy_env)).
Proof.
  apply act_blocked; try reflexivity.
  - intros b [Hb | []]. subst b. unfold Body_blocks, blocks, far_obstacle.
    rewrite contains_angle0 by lra.
    unfold shot. rewrite next_point_dir0.
    unfold region, within_bounds. decide_R. reflexivity.
  - apply shot_lands_in_robot. reflexivity.
Qed.

Lemma act_frame_witness :
  Bullet.oid (fst (Bullet.destruct shot busy_env)) = Bullet.oid shot.
Proof.
  apply (act_frame _ _ _ _ shot_hits_busy_env).
Defined.

Lemma acts_idle (n : nat) (self : Bullet.t) (env : Env) :
  Bullet.active self = false -> acts n self env = Ok (self, env).
Proof.
  intros Hidle. induction n as [| n IH]; cbn [acts]; [reflexivity |].
  unfold Bullet.act. rewrite Hidle. cbn [negb bind fst snd]. exact IH.
Qed.

Lemma acts_bodies (n : nat) :
  forall (self : Bullet.t) (env : Env) (self' : Bullet.t) (env' : Env),
    acts n self env = Ok (self', env') ->
    unpenetrables env' = unpenetrables env \/
    exists pre r post,
      unpenetrables env = pre ++ RobotBody r :: post /\
      unpenetrables env' =
        pre ++ RobotBody (Robot.reduceHealth r Bullet.damage) :: post /\
      Bullet.active self' = false.
Proof.
  induction n as [| n IH]; intros self env self' env' Hacts.
  - cbn [acts] in Hacts. injection Hacts as <- <-. left. reflexivity.
  - cbn [acts] in Hacts.
    destruct (Bullet.act self env) as [[s1 e1] | e] eqn:Hact;
      cbn [bind fst snd] in Hacts; [| discriminate].
    destruct (act_bodies _ _ _ _ Hact)
      as [Hsame | [pre [r [post [H1 [H2 [_ Hoff]]]]]]].
    + destruct (IH _ _ _ _ Hacts) as [Hsame' | Hhit].
      * left. congruence.
      * right. rewrite <- Hsame. exact Hhit.
    + rewrite (acts_idle n s1 e1 Hoff) in Hacts. injection Hacts as <- <-.
      right. exists pre, r, post. repeat split; assumption.
Qed.

(** X17: a bullet hurts at most one robot, once.  After any number of
    calls of [act] on the same bullet, with nothing else touching the
    bodies, either the bodies are as they were, or exactly one robot has
    taken exactly one [reduceHealth(20)], every other body is as it was,
    and the bullet is inactive; an inactive bullet does nothing, however
    often [act] is called. *)
Theorem bullet_hits_at_most_once :
  forall (n : nat) (self : Bullet.t) (env : Env)
         (self' : Bullet.t) (env' : Env),
    acts n self env = Ok (self', env') ->
    (unpenetrables env' = unpenetrables env \/
     exists pre r post,
       unpenetrables env = pre ++ RobotBody r :: post /\
       unpenetrables env' =
         pre ++ RobotBody (Robot.reduceHealth r Bullet.damage) :: post /\
       Bullet.active self' = false) /\
    (Bullet.active self' = false ->
     forall m, acts m self' env' = Ok (self', env')).
Proof.
  intros n self env self' env' Hacts.
  split; [apply (acts_bodies n _ _ _ _ Hacts) |].
  intros Hoff m. apply acts_idle. exact Hoff.
Qed.

Lemma tunnel_act (oid : nat) (px py : R) (team : TeamName)
      (ox oy w h a : R) (live : list nat) (legal : Point.t -> bool) :
  px + 25 < ox \/ ox + w < px + 25 \/ py < oy \/ oy + h < py ->
  legal (Point.mk (px + 25) py) = true ->
  Bullet.act (Bullet.init oid (Point.mk px py) 0 team)
             (mkEnv [StaticBody (Rectangle_init Upright (Point.mk ox oy) w h a)]
                    live legal) =
  Ok (Bullet.mk oid 0 25 0 (Point.mk (px + 25) py) (0 / 180 * PI) team true,
      mkEnv [StaticBody (Rectangle_init Upright (Point.mk ox oy) w h a)]
            live legal).
Proof.
  intros Hout Hlegal.
  rewrite (act_free (Bullet.init oid (Point.mk px py) 0 team) _ eq_refl).
  - rewrite next_point_dir0. reflexivity.
  - simpl. lia.
  - intros b v [<- | []]. unfold Body_blocks, blocks.
    rewrite upright_contains, next_point_dir0. f_equal.
    apply within_bounds_false. cbn [Point.x Point.y]. exact Hout.
  - rewrite next_point_dir0. exact Hlegal.
Qed.

(** X18: [act] tests the next sample point only, not the path to it.  A
    bullet flying along the x axis direction passes an upright obstacle
    that lies across its path but ends before the next sample point (25
    further on): the bullet moves on, nothing is hit, although the point
    where the path enters the obstacle is inside it. *)
Theorem bullet_skips_thin_obstacle :
  forall (oid : nat) (px py : R) (team : TeamName)
         (ox oy w h a : R) (live : list nat) (legal : Point.t -> bool),
    px < ox -> 0 <= w -> ox + w < px + 25 ->
    oy <= py <= oy + h ->
    legal (Point.mk (px + 25) py) = true ->
    let obstacle := Rectangle_init Upright (Point.mk ox oy) w h a in
    let env := mkEnv [StaticBody obstacle] live legal in
    Bullet.act (Bullet.init oid (Point.mk px py) 0 team) env =
      Ok (Bullet.mk oid 0 25 0 (Point.mk (px + 25) py) (0 / 180 * PI) team true,
          env) /\
    contains obstacle (Point.mk ox py) = Ok true /\
    px < ox < px + 25.
Proof.
  intros oid px py team ox oy w h a live legal Hx Hw Hend Hy Hlegal obstacle env.
  split; [apply tunnel_act; [lra | exact Hlegal] |].
  split; [| lra].
  unfold obstacle. rewrite upright_contains. f_equal.
  unfold within_bounds. cbn [Point.x Point.y]. bool_to_prop.
  repeat split; lra.
Qed.

Lemma bullet_skips_thin_obstacle_witness :
  Bullet.act (Bullet.init 1 (Point.mk 0 5) 0 BLUE)
             (mkEnv [StaticBody (Rectangle_init Upright (Point.mk 10 0) 5 10 0)]
                    [1%nat] all_legal) =
  Ok (Bullet.mk 1 0 25 0 (Point.mk (0 + 25) 5) (0 / 180 * PI) BLUE true,
      mkEnv [StaticBody (Rectangle_init Upright (Point.mk 10 0) 5 10 0)]
            [1%nat] all_legal).
Proof.
  apply (bullet_skips_thin_obstacle 1 0 5 BLUE 10 0 5 10 0 [1%nat] all_legal);
    try lra; reflexivity.
Defined.

Lemma bullet_hits_at_most_once_witness :
  exists (self' : Bullet.t) (env' : Env),
    acts 2 shot busy_env = Ok (self', env') /\
    Bullet.active self' = false /\
    forall m, acts m self' env' = Ok (self', env').
Proof.
  assert (Hacts : acts 2 shot busy_env =
                  Ok (fst (Bullet.destruct shot busy_env),
                      mkEnv ([StaticBody far_obstacle] ++
                             Body_reduceHealth
                               (RobotBody (Robot.init RED (Point.mk 0 0) 0))
                               Bullet.damage ::
                             [RobotBody (Robot.init RED (Point.mk 100 0) 0)])
                            (bullets (snd (Bullet.destruct shot busy_env)))
                            (isLegal busy_env))).
  { cbn [acts]. rewrite shot_hits_busy_env. cbn [bind fst snd].
    apply (acts_idle 1). reflexivity. }
  destruct (bullet_hits_at_most_once 2 shot busy_env _ _ Hacts) as [_ Hidle].
  eexists. eexists. split; [exact Hacts |].
  split; [reflexivity |]. apply Hidle. reflexivity.
Defined.

(** * Starting zones *)

Lemma starting_zones_apart (s W H : R) (p : Point.t) :
  s < W - s \/ s < H - s ->
  within_bounds (Point.mk 0 0) s s p = true ->
  within_bounds (Point.mk (W - s) (H - s)) s s p = true -> False.
Proof.
  unfold within_bounds. cbn [Point.x Point.y]. bool_to_prop.
  intros Hgap [[[H1 H2] H3] H4] [[[H5 H6] H7] H8]. lra.
Qed.

(** X19: in a field of width W and height H with a starting-zone side s
    between 0 and both, the BLUE zone is the square anchored at the origin
    and the RED zone the square whose far corner is (W, H); all their
    vertices lie in the field and their centers mirror each other through
    the middle of the field.  When 2s < W or 2s < H the two zones share no
    point and do not intersect.  A team of any other name gets a zone with
    no rectangle at all. *)
Theorem starting_zones_in_corners :
  forall s W H : R,
    0 <= s <= W -> 0 <= s <= H ->
    exists blue red : Rectangle,
      StartingZone.zone (StartingZone.init s W H "BLUE"%string) = Some blue /\
      StartingZone.zone (StartingZone.init s W H "RED"%string) = Some red /\
      vertex blue 0 = Point.mk 0 0 /\
      vertex red 2 = Point.mk W H /\
      Forall (fun v => 0 <= Point.x v <= W /\ 0 <= Point.y v <= H)
             (vertices blue ++ vertices red) /\
      Point.midpoint (center blue) (center red) = Point.mk (W / 2) (H / 2) /\
      (s < W - s \/ s < H - s ->
       intersects blue red = Ok false /\
       forall p, ~ (contains blue p = Ok true /\ contains red p = Ok true)) /\
      (forall name : String.string,
          name <> "BLUE"%string -> name <> "RED"%string ->
          StartingZone.zone (StartingZone.init s W H name) = None).
Proof.
  intros s W H Hw Hh.
  exists (Rectangle_init Upright (Point.mk 0 0) s s 0),
         (Rectangle_init Upright (Point.mk (W - s) (H - s)) s s 0).
  split; [reflexivity |]. split; [reflexivity |].
  split; [reflexivity |].
  split; [unfold vertex; rewrite vertices_upright; simpl; apply Point_eq; ring |].
  split.
  { rewrite !vertices_upright. cbn [app Point.x Point.y].
    repeat apply Forall_cons; try apply Forall_nil; cbn [Point.x Point.y];
      split; lra. }
  split.
  { rewrite !center_upright. unfold Point.midpoint. cbn [Point.x Point.y].
    apply Point_eq; field. }
  split.
  - intros Hgap. split.
    + rewrite upright_intersects. f_equal.
      unfold corners, any. cbn [map app existsb Point.x Point.y].
      repeat (apply orb_false_intro); try reflexivity;
        apply within_bounds_false; cbn [Point.x Point.y]; lra.
    + intros p [Hb Hr]. rewrite upright_contains in Hb, Hr.
      injection Hb as Hb. injection Hr as Hr.
      apply (starting_zones_apart s W H p Hgap Hb Hr).
  - intros name Hblue Hred. unfold StartingZone.init.
    apply String.eqb_neq in Hblue. apply String.eqb_neq in Hred.
    rewrite Hblue, Hred. reflexivity.
Qed.

Lemma starting_zones_in_corners_witness :
  exists blue red : Rectangle,
    StartingZone.zone (StartingZone.init 100 800 500 "BLUE"%string) = Some blue /\
    StartingZone.zone (StartingZone.init 100 800 500 "RED"%string) = Some red /\
    vertex red 2 = Point.mk 800 500 /\
    intersects blue red = Ok false.
Proof.
  destruct (starting_zones_in_corners 100 800 500)
    as [blue [red [Hb [Hr [_ [Hfar [_ [_ [Hapart _]]]]]]]]]; try lra.
  exists blue, red. split; [exact Hb |]. split; [exact Hr |].
  split; [exact Hfar |]. apply Hapart. lra.
Defined.

(** * Which class answers which method *)

(** X20: looking a method name up along the ancestry of each class of the
    file.  [permissible] is answered by Obstacle only and [permissble] by
    Zone and its three subclasses only, so no object answers both
    spellings, and robots and bullets answer neither.  [contains] and
    [getVertices] reach the upright versions exactly for obstacles and
    zones and the general versions for Rectangle and the robots.
    [isRobot] reaches Robot's version exactly for Robot and its three
    subclasses, and Bullet, which has no base class, answers neither
    [isRobot] nor [reset]. *)
Theorem method_lookup :
  forall c : Class,
    (resolve c "permissible"%string <> None <-> c = Obstacle_class) /\
    (resolve c "permissble"%string <> None <->
     In c [Zone_class; LoadingZone_class; DefenseBuffZone_class;
           StartingZone_class]) /\
    (resolve c "permissible"%string = None \/ resolve c "permissble"%string = None) /\
    (resolve c "contains"%string = Some uprightRectangle_class <->
     In c [uprightRectangle_class; Obstacle_class; Zone_class;
           LoadingZone_class; DefenseBuffZone_class; StartingZone_class]) /\
    (resolve c "contains"%string = Some Rectangle_class <->
     In c [Rectangle_class; Robot_class; DummyRobot_class; CrazyRobot_class;
           AttackRobot_class]) /\
    (resolve c "getVertices"%string = resolve c "contains"%string) /\
    (resolve c "isRobot"%string = Some Robot_class <->
     In c [Robot_class; DummyRobot_class; CrazyRobot_class;
           AttackRobot_class]) /\
    (resolve c "isRobot"%string = None <-> c = Bullet_class) /\
    (resolve Bullet_class "reset"%string = None).
Proof.
  intros c.
  destruct c; cbv [resolve mro ancestors base defines find existsb
                   String.eqb Ascii.eqb Bool.eqb];
    cbn [In];
    repeat split; intros; try reflexivity; try congruence;
      try discriminate; intuition (try discriminate; try congruence).
Qed.

(** * A tick in which nothing can move *)

Lemma execute_rejected (isObstructed : Rectangle -> Robot.t -> bool)
      (self : Robot.t) (action : Robot.Action) :
  action self = None \/
  (exists rec, action self = Some rec /\ isObstructed rec self = true) ->
  Robot.execute isObstructed self action = self.
Proof.
  unfold Robot.execute. intros [Hnone | [rec [Hsome Hobs]]].
  - rewrite Hnone. reflexivity.
  - rewrite Hsome, Hobs. reflexivity.
Qed.

Lemma execute_all_rejected (isObstructed : Rectangle -> Robot.t -> bool)
      (self : Robot.t) (actions : list Robot.Action) :
  Forall (fun action =>
            action self = None \/
            (exists rec, action self = Some rec /\ isObstructed rec self = true))
         actions ->
  fold_left (Robot.execute isObstructed) actions self = self.
Proof.
  induction 1 as [| action rest Hrej _ IH]; simpl; [reflexivity |].
  rewrite (execute_rejected _ _ _ Hrej). exact IH.
Qed.

(** X21: a live robot whose strategy returns a list of actions, each of
    which resolves to nothing or to an obstructed rectangle at the robot's
    pose, ends its tick with the timer one lower and everything else,
    pose and gun included, as it was: a rejected action does not affect the
    actions after it. *)
Theorem tick_with_every_move_rejected :
  forall (isObstructed : Rectangle -> Robot.t -> bool)
         (decide : Robot.t -> Robot.Decision)
         (self : Robot.t) (actions : list Robot.Action),
    0 < Robot.health self ->
    let ticked :=
      Robot.set_defenseBuffTimer self (Robot.defenseBuffTimer self - 1)%Z in
    decide ticked = Robot.Sequence actions ->
    Forall (fun action =>
              action ticked = None \/
              (exists rec,
                  action ticked = Some rec /\ isObstructed rec ticked = true))
           actions ->
    Robot.act isObstructed (Some decide) self = ticked.
Proof.
  intros isObstructed decide self actions Hlive ticked Hdecide Hrej.
  apply alive_iff in Hlive. unfold Robot.act. rewrite Hlive.
  fold ticked. rewrite Hdecide.
  apply execute_all_rejected. exact Hrej.
Qed.

Lemma tick_with_every_move_rejected_witness :
  Robot.act left_of_field
            (Some (fun _ => Robot.Sequence [step_left; (fun _ => None); step_left]))
            (Robot.init BLUE (Point.mk 0 0) 0) =
  Robot.set_defenseBuffTimer (Robot.init BLUE (Point.mk 0 0) 0) (0 - 1)%Z.
Proof.
  apply (tick_with_every_move_rejected
           left_of_field
           (fun _ => Robot.Sequence [step_left; (fun _ => None); step_left])
           (Robot.init BLUE (Point.mk 0 0) 0)
           [step_left; (fun _ => None); step_left]).
  - simpl. lra.
  - reflexivity.
  - assert (Hleft :
              exists rec,
                step_left (Robot.set_defenseBuffTimer
                             (Robot.init BLUE (Point.mk 0 0) 0) (0 - 1)%Z) =
                Some rec /\
                left_of_field rec (Robot.set_defenseBuffTimer
                                     (Robot.init BLUE (Point.mk 0 0) 0)
                                     (0 - 1)%Z) = true).
    { eexists. split; [reflexivity |].
      unfold left_of_field. simpl. decide_R. reflexivity. }
    apply Forall_cons; [right; exact Hleft |].
    apply Forall_cons; [left; reflexivity |].
    apply Forall_cons; [right; exact Hleft | apply Forall_nil].
Defined.
